(** * AI-Judge: the run-evaluations edge function

  A shallow embedding of [supabase/functions/run-evaluations]
  ([index.ts], [openAI.ts], [evaluate.ts], [database.ts], [types.ts])
  and the properties of its evaluation pipeline.

  Asynchronous code is modelled by explicit state passing: a computation
  takes the current [World] (the database tables, the number of database
  round trips made, the log of provider requests) and gives back either a
  value or a thrown JavaScript value, with the new world.  The outside
  (database faults, the model provider, the runtime's JSON functions) is a
  parameter of the development. *)

From Stdlib Require Import Ascii PrimFloat.
From Stdlib Require Import Uint63.
From Stdlib Require FloatOps.
From stdpp Require Import base strings list gmap pretty.

(** ** Strings *)

Module Str.

(** The line feed and the double quote, spelled by their codes. *)
Definition nl : string := String "010"%char "".
Definition dq : string := String "034"%char "".

(** [lines] joins the lines of a template literal. *)
Fixpoint lines (ls : list string) : string :=
  match ls with
  | [] => ""
  | [l] => l
  | l :: rest => l +:+ nl +:+ lines rest
  end.

(** [String.prototype.startsWith] *)
Fixpoint startsWith (s p : string) {struct p} : bool :=
  match p, s with
  | EmptyString, _ => true
  | String a p', String b s' => if Ascii.eqb a b then startsWith s' p' else false
  | String _ _, EmptyString => false
  end.

(** [String.prototype.includes] *)
Fixpoint includes (s sub : string) : bool :=
  startsWith s sub ||
  match s with
  | EmptyString => false
  | String _ s' => includes s' sub
  end.

(** [String.prototype.toLowerCase], on the ASCII letters. *)
Definition lower_char (c : ascii) : ascii :=
  let n := Ascii.nat_of_ascii c in
  if (65 <=? n)%nat && (n <=? 90)%nat then Ascii.ascii_of_nat (n + 32) else c.

Fixpoint toLowerCase (s : string) : string :=
  match s with
  | EmptyString => EmptyString
  | String c s' => String (lower_char c) (toLowerCase s')
  end.

Definition eqb (s t : string) : bool := bool_decide (s = t).

End Str.

(** ** JSON values and the JavaScript operations used on them *)

Set Warnings "-register-all".

(** A value produced by [JSON.parse] or read from a [jsonb] column.  Numbers
  are IEEE doubles, as in JavaScript; an object keeps its members as an
  association list read by [assoc]. *)
Inductive json : Type :=
| JNull
| JBool (b : bool)
| JNum (x : float)
| JStr (s : string)
| JArr (items : list json)
| JObj (members : list (string * json)).

(** A JavaScript value the code can hold: [None] is [undefined]. *)
Definition jsval : Type := option json.

Module Js.

Fixpoint assoc (k : string) (members : list (string * json)) : jsval :=
  match members with
  | [] => None
  | (k', v) :: rest => if Str.eqb k k' then Some v else assoc k rest
  end.

(** ToBoolean *)
Definition truthy (v : jsval) : bool :=
  match v with
  | None => false
  | Some JNull => false
  | Some (JBool b) => b
  | Some (JNum x) => negb (PrimFloat.eqb x PrimFloat.zero || PrimFloat.is_nan x)
  | Some (JStr s) => negb (Str.eqb s "")
  | Some (JArr _) => true
  | Some (JObj _) => true
  end.

(** [v === 'lit'] for a string literal *)
Definition is_string (v : jsval) (lit : string) : bool :=
  match v with
  | Some (JStr s) => Str.eqb s lit
  | _ => false
  end.

End Js.

(** ** Thrown values and the computation monad *)

(** What a [throw] (or a rejected promise) carries: an instance of [Error]
    with its [name] and [message], or any other value (a plain error object
    handed back by a client library). *)
Inductive thrown : Type :=
| JsError (name message : string)
| NotAnError.

Definition new_Error (message : string) : thrown := JsError "Error" message.
Definition TypeError (message : string) : thrown := JsError "TypeError" message.
Definition SyntaxError (message : string) : thrown := JsError "SyntaxError" message.

(** [error instanceof Error ? error.message : 'Unknown error'] *)
Definition message_or_unknown (e : thrown) : string :=
  match e with
  | JsError _ m => m
  | NotAnError => "Unknown error"
  end.

Inductive outcome (A : Type) : Type :=
| Return (a : A)
| Throw (e : thrown).
Arguments Return {A} a.
Arguments Throw {A} e.

(** Pure code that can throw. *)
Module Exn.

Definition bind {A B} (m : outcome A) (k : A -> outcome B) : outcome B :=
  match m with
  | Return a => k a
  | Throw e => Throw e
  end.

(** [try { m } catch { h }] *)
Definition try_catch {A} (m : outcome A) (h : thrown -> A) : A :=
  match m with
  | Return a => a
  | Throw e => h e
  end.

End Exn.

(** *** Property access *)

Module Prop_access.

(** [v.k] on a value from [JSON.parse]: reading a property of [null] or
    [undefined] throws; an object gives its member; the keys the code reads
    ([error], [code], [param], [message], [choices], [content], [verdict],
    [reasoning]) are own properties of nothing else. *)
Definition get (v : jsval) (k : string) : outcome jsval :=
  match v with
  | None => Throw (TypeError ("Cannot read properties of undefined (reading '" +:+ k +:+ "')"))
  | Some JNull => Throw (TypeError ("Cannot read properties of null (reading '" +:+ k +:+ "')"))
  | Some (JObj members) => Return (Js.assoc k members)
  | Some _ => Return None
  end.

(** [v?.k] *)
Definition get_opt (v : jsval) (k : string) : jsval :=
  match v with
  | Some (JObj members) => Js.assoc k members
  | _ => None
  end.

(** [v[0]] *)
Definition first (v : jsval) : outcome jsval :=
  match v with
  | None => Throw (TypeError "Cannot read properties of undefined (reading '0')")
  | Some JNull => Throw (TypeError "Cannot read properties of null (reading '0')")
  | Some (JArr items) => Return (head items)
  | Some (JObj members) => Return (Js.assoc "0" members)
  | Some (JStr (String c _)) => Return (Some (JStr (String c "")))
  | Some _ => Return None
  end.

(** [v.includes(lit)] for a truthy [v]: the string method, the array method
    (SameValueZero against a string literal), or a TypeError because the
    property is not a function. *)
Definition call_includes (v : json) (lit : string) : outcome bool :=
  match v with
  | JStr s => Return (Str.includes s lit)
  | JArr items => Return (existsb (fun i => Js.is_string (Some i) lit) items)
  | _ => Throw (TypeError "includes is not a function")
  end.

End Prop_access.

Notation "'let?' x ':=' m 'in' k" := (Exn.bind m (fun x => k))
  (at level 10, x name, m at level 100, k at level 200).

(** ** Data model ([types.ts] and [schema.sql]) *)

Record SubmissionRow : Type := {
  sub_id : string;
  sub_workspace_id : string;
}.

(** A row of [questions]; [question_type] is [string | null]. *)
Record QuestionRow : Type := {
  qrow_id : string;
  qrow_submission_id : string;
  qrow_question_text : string;
  qrow_question_type : option string;
}.

Record AnswerRow : Type := {
  ans_question_id : string;
  ans_answer_json : json;
}.

Record JudgeRow : Type := {
  jrow_id : string;
  jrow_user_id : string;
  jrow_name : string;
  jrow_system_prompt : string;
  jrow_model : string;
}.

(** [interface Assignment], also a row of [judge_assignments]. *)
Record Assignment : Type := {
  judge_id : string;
  question_id : string;
}.

(** A row of [evaluations]; [reasoning] is text or [null] ([JNull]). *)
Record EvaluationRow : Type := {
  ev_id : string;
  ev_submission_id : string;
  ev_question_id : string;
  ev_judge_id : string;
  ev_verdict : string;
  ev_reasoning : json;
}.

(** [interface JudgeData] *)
Record JudgeData : Type := {
  id : string;
  name : string;
  system_prompt : string;
  model : string;
}.

(** [interface QuestionData]; [answer_json] is [unknown] and may be
    [undefined]. *)
Record QuestionData : Type := {
  q_id : string;
  question_text : string;
  question_type : option string;
  answer_json : jsval;
  submission_id : string;
}.

(** [interface EvaluationResult] *)
Record EvaluationResult : Type := {
  questionId : string;
  judgeId : string;
  verdict : string;
  success : bool;
  error : option string;
}.

(** [interface OpenAIResponse].  [reasoning] is declared a string but is
    whatever truthy value the model's JSON carried, hence a [json]. *)
Record OpenAIResponse : Type := {
  oa_verdict : string;
  oa_reasoning : json;
}.

(** [interface EvaluationRequest]; a field that is absent is [None]. *)
Record EvaluationRequest : Type := {
  workspaceId : option string;
  userId : option string;
}.

(** ** The outside world *)

(** The body of the POST sent to the chat-completions endpoint. *)
Record ChatRequest : Type := {
  rq_bearer : string;
  rq_model : string;
  rq_system : string;
  rq_user : string;
  rq_temperature : option nat;
}.

(** A provider response: [response.ok] is a status in 200..299,
    [response.text()] is [rs_text]. *)
Record Response : Type := {
  rs_status : nat;
  rs_text : string;
}.

Definition ok (r : Response) : bool :=
  (200 <=? rs_status r)%nat && (rs_status r <=? 299)%nat.

Inductive fetch_result : Type :=
| Responds (r : Response)
| Rejects (e : thrown).

Record World : Type := {
  submissions : list SubmissionRow;
  questions : list QuestionRow;
  answers : list AnswerRow;
  judge_assignments : list Assignment;
  judges : list JudgeRow;
  evaluations : list EvaluationRow;
  db_calls : nat;
  http_log : list ChatRequest;
}.

(** What the function does not control.
    - [db_error n]: the error, if any, of the [n]-th database round trip;
    - [provider log]: the provider's answer to the last request of [log];
    - [JSON_parse], [parse_error]: [JSON.parse], and the message of the
      SyntaxError it throws on a text it rejects;
    - [JSON_stringify]: [JSON.stringify (v, null, 2)] on a JSON value;
    - [ToString]: the string conversion of a template literal, for a value
      that is not a string;
    - [OPENAI_SECRET_KEY]: the environment variable. *)
Record Env : Type := {
  db_error : nat -> option thrown;
  provider : list ChatRequest -> fetch_result;
  JSON_parse : string -> option json;
  parse_error : string -> string;
  JSON_stringify : json -> string;
  ToString : json -> string;
  OPENAI_SECRET_KEY : option string;
}.

Definition M (A : Type) : Type := World -> outcome A * World.

Module St.

Definition ret {A} (a : A) : M A := fun w => (Return a, w).

Definition throw {A} (e : thrown) : M A := fun w => (Throw e, w).

Definition bind {A B} (m : M A) (k : A -> M B) : M B := fun w =>
  match m w with
  | (Return a, w') => k a w'
  | (Throw e, w') => (Throw e, w')
  end.

(** [try { m } catch (e) { h e }] *)
Definition try_catch {A} (m : M A) (h : thrown -> M A) : M A := fun w =>
  match m w with
  | (Return a, w') => (Return a, w')
  | (Throw e, w') => h e w'
  end.

Definition lift {A} (o : outcome A) : M A := fun w => (o, w).

Definition read : M World := fun w => (Return w, w).

End St.

Notation "'let*' x ':=' m 'in' k" := (St.bind m (fun x => k))
  (at level 10, x name, m at level 100, k at level 200).
Notation "m ';;' k" := (St.bind m (fun _ => k))
  (at level 100, k at level 200, right associativity).

(** ** The prompt builder, model caller and response validator ([openAI.ts]) *)

(** The text shared by the last line of every template: an opening brace,
    then the two fields of the answer the model must give, up to the words
    [your explanation]. *)
Definition verdict_shape : string :=
  "{" +:+ Str.dq +:+ "verdict" +:+ Str.dq +:+ ": " +:+ Str.dq +:+ "pass" +:+ Str.dq +:+ " | " +:+ Str.dq +:+ "fail" +:+ Str.dq +:+ " | " +:+ Str.dq +:+ "inconclusive" +:+ Str.dq +:+ ", " +:+ Str.dq +:+ "reasoning" +:+ Str.dq +:+ ": " +:+ Str.dq +:+ "your explanation".

Definition multiple_choice_prompt (questionText answerStr : string) : string :=
  Str.lines [
    "Question Type: Multiple Choice";
    "Question: " +:+ questionText;
    "";
    "Answer JSON:";
    answerStr;
    "";
    "Evaluation Instructions:";
    "- This is a standard multiple-choice question with a definitive ground truth.";
    "- Extract the user's choice from the 'choice', 'label', or 'choices' field in the answer JSON.";
    "- If 'choices' is an array, use the array values as the selected options.";
    "- If 'choices' is a single value, treat it as the selected choice.";
    "- Check if the choice(s) match the correct answer (ground truth).";
    "- If the choice is incorrect, issue an immediate FAIL.";
    "- If the choice is correct, issue a PASS.";
    "- Respond with JSON: " +:+ verdict_shape +:+ Str.dq +:+ "}"
  ].

Definition single_choice_with_reasoning_prompt (questionText answerStr : string) : string :=
  Str.lines [
    "Question Type: Single Choice with Reasoning";
    "Question: " +:+ questionText;
    "";
    "Answer JSON:";
    answerStr;
    "";
    "Evaluation Instructions:";
    "- This question type expects a fixed choice (like " +:+ Str.dq +:+ "yes/no" +:+ Str.dq +:+ ") plus a text explanation.";
    "- Extract both the 'choice' (or 'label') AND 'reasoning' fields from the answer JSON.";
    "- The choice must be correct AND the reasoning must support it.";
    "- Look for contradictions: If the choice is correct but reasoning says " +:+ Str.dq +:+ "I don't know" +:+ Str.dq +:+ " or contradicts the choice, issue INCONCLUSIVE (human was guessing).";
    "- If choice is wrong, issue FAIL.";
    "- If choice is correct AND reasoning supports it, issue PASS.";
    "- Respond with JSON: " +:+ verdict_shape +:+ Str.dq +:+ "}"
  ].

Definition free_form_prompt (questionText answerStr : string) : string :=
  Str.lines [
    "Question Type: Free-Form (Open-Ended)";
    "Question: " +:+ questionText;
    "";
    "Answer JSON:";
    answerStr;
    "";
    "Evaluation Instructions:";
    "- Extract the text content from 'text' or 'content' field in the answer JSON.";
    "- This is a subjective evaluation with no exact string match.";
    "- Evaluate the quality, tone, and accuracy of the text.";
    "- Use the system prompt (rubric) to determine if the human followed instructions.";
    "- Act like a teacher: assess whether the answer demonstrates understanding.";
    "- Respond with JSON: " +:+ verdict_shape +:+ Str.dq +:+ "}"
  ].

Definition default_prompt (questionText answerStr : string) : string :=
  Str.lines [
    "Question: " +:+ questionText;
    "";
    "Answer JSON:";
    answerStr;
    "";
    "Evaluate this answer and respond with JSON in this exact format: " +:+ verdict_shape +:+ " here" +:+ Str.dq +:+ "}"
  ].


Section Pipeline.

Context (env : Env).

(** [JSON.stringify (answerJson, null, 2)]: [undefined] for [undefined]. *)
Definition stringify_answer (answerJson : jsval) : option string :=
  JSON_stringify env <$> answerJson.

(** A [string | undefined] placed in a template literal. *)
Definition interpolate (s : option string) : string := default "undefined" s.

(** A JSON value placed in a template literal, or coerced by [JSON.parse]. *)
Definition render (v : json) : string :=
  match v with
  | JStr s => s
  | _ => ToString env v
  end.

Definition buildTypeSpecificPrompt
    (questionType : option string) (questionText : string) (answerJson : jsval) : string :=
  let answerStr := interpolate (stringify_answer answerJson) in
  match questionType with
  | Some t =>
      if Str.eqb t "multiple_choice" then multiple_choice_prompt questionText answerStr
      else if Str.eqb t "single_choice_with_reasoning"
           then single_choice_with_reasoning_prompt questionText answerStr
      else if Str.eqb t "free_form" then free_form_prompt questionText answerStr
      else default_prompt questionText answerStr
  | None => default_prompt questionText answerStr
  end.

(** [JSON.parse], throwing. *)
Definition json_parse (text : string) : outcome jsval :=
  match JSON_parse env text with
  | Some v => Return (Some v)
  | None => Throw (SyntaxError (parse_error env text))
  end.

Definition validateVerdict (verdict : jsval) : string :=
  if existsb (Js.is_string verdict) ["pass"; "fail"; "inconclusive"]
  then match verdict with Some (JStr s) => s | _ => "inconclusive" end
  else "inconclusive".

(** [v || d] *)
Definition or_else (v : jsval) (d : json) : json :=
  match v with
  | Some j => if Js.truthy v then j else d
  | None => d
  end.

(** The response validator: the [try]/[catch] that ends [callOpenAI]. *)
Definition parseAndValidate (content : string) : OpenAIResponse :=
  Exn.try_catch
    (let? parsed := json_parse content in
     let? verdict := Prop_access.get parsed "verdict" in
     let? reasoning := Prop_access.get parsed "reasoning" in
     Return {| oa_verdict := validateVerdict verdict;
               oa_reasoning := or_else reasoning (JStr "") |})
    (fun _ => {| oa_verdict := "inconclusive";
                 oa_reasoning := JStr "Failed to parse LLM response as JSON" |}).

Definition modelsWithoutTemperature : list string :=
  ["gpt-5-mini"; "gpt-5.1-mini"; "gpt-5 mini"; "gpt-5.1 mini"].

Definition supportsTemperature (model : string) : bool :=
  let modelLower := Str.toLowerCase model in
  negb (existsb (fun m => Str.includes modelLower (Str.toLowerCase m))
                modelsWithoutTemperature).

Definition log_request (q : ChatRequest) (w : World) : World :=
  {| submissions := submissions w; questions := questions w; answers := answers w;
     judge_assignments := judge_assignments w; judges := judges w;
     evaluations := evaluations w; db_calls := db_calls w;
     http_log := http_log w ++ [q] |}.

(** [fetch] of the chat-completions endpoint: the request is logged and the
    provider answers it, or the promise rejects (network failure, abort). *)
Definition fetch (q : ChatRequest) : M Response := fun w =>
  let w' := log_request q w in
  match provider env (http_log w') with
  | Responds r => (Return r, w')
  | Rejects e => (Throw e, w')
  end.

Definition is_AbortError (e : thrown) : bool :=
  match e with
  | JsError name _ => Str.eqb name "AbortError"
  | NotAnError => false
  end.

Definition makeRequest (apiKey systemPrompt userPrompt model : string)
    (includeTemperature : bool) : M Response :=
  St.try_catch
    (fetch {| rq_bearer := apiKey; rq_model := model;
              rq_system := systemPrompt; rq_user := userPrompt;
              rq_temperature := if includeTemperature then Some 0 else None |})
    (fun error =>
       if is_AbortError error
       then St.throw (new_Error ("OpenAI API request timeout for model " +:+ model
                                 +:+ ". The request took longer than 2 minutes."))
       else St.throw error).

(** The condition tested inside the [try] of the retry decision. *)
Definition temperature_rejected (errorData : jsval) : outcome bool :=
  let? error := Prop_access.get errorData "error" in
  if Js.is_string (Prop_access.get_opt error "code") "unsupported_value"
     && Js.is_string (Prop_access.get_opt error "param") "temperature"
  then Return true
  else
    match Prop_access.get_opt error "message" with
    | Some message =>
        if Js.truthy (Some message) then
          let? has_temperature := Prop_access.call_includes message "temperature" in
          if has_temperature
          then Prop_access.call_includes message "does not support"
          else Return false
        else Return false
    | None => Return false
    end.

Definition shouldRetry (errorText : string) : bool :=
  Exn.try_catch
    (let? errorData := json_parse errorText in temperature_rejected errorData)
    (fun _ => Str.includes errorText "temperature"
              && Str.includes errorText "does not support").

(** The message of the terminal failure after a first response that is not a
    temperature rejection. *)
Definition first_error_message (errorText : string) : outcome string :=
  if Str.includes errorText "{" then
    let? parsed := json_parse errorText in
    let? error := Prop_access.get parsed "error" in
    match Prop_access.get_opt error "message" with
    | Some message => Return (if Js.truthy (Some message) then render message else errorText)
    | None => Return errorText
    end
  else Return errorText.

(** The message built when the response in hand after the retry decision is
    still not a success. *)
Definition second_error_message (model : string) (r : Response) : string :=
  let errorText := rs_text r in
  Exn.try_catch
    (let? errorData := json_parse errorText in
     let? error := Prop_access.get errorData "error" in
     match Prop_access.get_opt error "message" with
     | Some message =>
         if Js.truthy (Some message) then
           if Js.is_string (Prop_access.get_opt error "code") "model_not_found"
           then Return ("Model " +:+ Str.dq +:+ model +:+ Str.dq
                        +:+ " is not available. Please update your judge to use a different model (e.g., gpt-3.5-turbo).")
           else
             let? missing := Prop_access.call_includes message "does not exist" in
             if missing
             then Return ("Model " +:+ Str.dq +:+ model +:+ Str.dq
                          +:+ " is not available. Please update your judge to use a different model (e.g., gpt-3.5-turbo).")
             else Return ("OpenAI API error: " +:+ render message)
         else Return ("OpenAI API error: " +:+ pretty (rs_status r))
     | None => Return ("OpenAI API error: " +:+ pretty (rs_status r))
     end)
    (fun _ => "OpenAI API error: " +:+ pretty (rs_status r) +:+ " " +:+ errorText).

(** What [callOpenAI] does with the response it keeps: fail if it is not a
    success, else read the content and validate it. *)
Definition finish (model : string) (response : Response) : outcome OpenAIResponse :=
  if negb (ok response) then Throw (new_Error (second_error_message model response))
  else
    let? data := json_parse (rs_text response) in
    let? choices := Prop_access.get data "choices" in
    let? choice := Prop_access.first choices in
    let content := Prop_access.get_opt (Prop_access.get_opt choice "message") "content" in
    match content with
    | Some c =>
        if Js.truthy content then Return (parseAndValidate (render c))
        else Throw (new_Error "No content in OpenAI response")
    | None => Throw (new_Error "No content in OpenAI response")
    end.

Definition callOpenAI (apiKey systemPrompt questionText : string)
    (questionType : option string) (answerJson : jsval) (model : string)
    : M OpenAIResponse :=
  let userPrompt := buildTypeSpecificPrompt questionType questionText answerJson in
  let* response := makeRequest apiKey systemPrompt userPrompt model
                     (supportsTemperature model) in
  let* response :=
    if negb (ok response) then
      let errorText := rs_text response in
      if shouldRetry errorText
      then makeRequest apiKey systemPrompt userPrompt model false
      else
        let* errorMessage := St.lift (first_error_message errorText) in
        St.throw (new_Error ("OpenAI API error: " +:+ pretty (rs_status response)
                             +:+ " " +:+ errorMessage))
    else St.ret response in
  St.lift (finish model response).

(** ** Database operations ([database.ts]) *)

Definition tick (w : World) : World :=
  {| submissions := submissions w; questions := questions w; answers := answers w;
     judge_assignments := judge_assignments w; judges := judges w;
     evaluations := evaluations w; db_calls := S (db_calls w);
     http_log := http_log w |}.

Definition set_evaluations (rows : list EvaluationRow) (w : World) : World :=
  {| submissions := submissions w; questions := questions w; answers := answers w;
     judge_assignments := judge_assignments w; judges := judges w;
     evaluations := rows; db_calls := db_calls w;
     http_log := http_log w |}.

(** One round trip to the database: [const { data, error } = await ...;
    if (error) throw error].  A failed statement changes nothing. *)
Definition round_trip : M unit := fun w =>
  match db_error env (db_calls w) with
  | Some e => (Throw e, tick w)
  | None => (Return tt, tick w)
  end.

Definition select {A} (rows : World -> list A) : M (list A) :=
  round_trip;; let* w := St.read in St.ret (rows w).

Definition getSubmissionsForWorkspace (workspaceId : string) : M (list string) :=
  let* data := select (fun w =>
    filter (fun s => sub_workspace_id s = workspaceId) (submissions w)) in
  if decide (length data = 0) then St.throw (new_Error "No submissions found in workspace")
  else St.ret (sub_id <$> data).

Definition getQuestionsForSubmissions (submissionIds : list string)
    : M (list QuestionData) :=
  let* data := select (fun w =>
    filter (fun q => qrow_submission_id q ∈ submissionIds) (questions w)) in
  if decide (length data = 0) then St.throw (new_Error "No questions found")
  else St.ret ((fun q => {| q_id := qrow_id q;
                            question_text := qrow_question_text q;
                            question_type := qrow_question_type q;
                            answer_json := Some JNull;
                            submission_id := qrow_submission_id q |}) <$> data).

Definition getAnswersForQuestions (questionIds : list string) : M (gmap string json) :=
  let* data := select (fun w =>
    filter (fun a => ans_question_id a ∈ questionIds) (answers w)) in
  St.ret (foldl (fun answerMap a => <[ans_question_id a := ans_answer_json a]> answerMap)
                ∅ data).

Definition getJudgeAssignments (questionIds : list string) : M (list Assignment) :=
  if decide (length questionIds = 0) then St.ret []
  else
    let* data := select (fun w =>
      filter (fun a => question_id a ∈ questionIds) (judge_assignments w)) in
    if decide (length data = 0) then St.throw (new_Error "No judge assignments found")
    else St.ret data.

Definition getJudgesForUser (judgeIds : list string) (userId : string)
    : M (list JudgeData) :=
  if decide (length judgeIds = 0) then St.ret []
  else
    let* data := select (fun w =>
      filter (fun j => jrow_id j ∈ judgeIds ∧ jrow_user_id j = userId) (judges w)) in
    if decide (length data = 0) then St.throw (new_Error "No judges found")
    else St.ret ((fun j => {| id := jrow_id j; name := jrow_name j;
                              system_prompt := jrow_system_prompt j;
                              model := jrow_model j |}) <$> data).

(** The template [question_id:judge_id] that keys the set of valid pairs. *)
Definition pairKey (question judge : string) : string := question +:+ ":" +:+ judge.

Definition deleteOldEvaluations (questionIds : list string)
    (currentAssignments : list Assignment) : M unit :=
  if decide (length questionIds = 0) then St.ret tt
  else
    let validPairs : gset string :=
      foldl (fun pairs a => pairs ∪ {[ pairKey (question_id a) (judge_id a) ]})
            ∅ currentAssignments in
    let* existingEvaluations := select (fun w =>
      filter (fun e => ev_question_id e ∈ questionIds) (evaluations w)) in
    if decide (length existingEvaluations = 0) then St.ret tt
    else
      let evaluationsToDelete :=
        filter (fun e => pairKey (ev_question_id e) (ev_judge_id e) ∉ validPairs)
               existingEvaluations in
      if decide (length evaluationsToDelete = 0) then St.ret tt
      else
        let idsToDelete := ev_id <$> evaluationsToDelete in
        round_trip;;
        fun w => (Return tt,
                  set_evaluations (filter (fun e => ev_id e ∉ idsToDelete) (evaluations w)) w).

(** [upsert (row, { onConflict: 'question_id,judge_id' })]: the row with that
    pair is overwritten, keeping its id; otherwise a row is added, under an
    id the table does not use yet (the database draws a random UUID). *)
Definition conflicts (questionId judgeId : string) (e : EvaluationRow) : Prop :=
  ev_question_id e = questionId ∧ ev_judge_id e = judgeId.

#[local] Instance conflicts_dec questionId judgeId e : Decision (conflicts questionId judgeId e).
Proof. unfold conflicts. apply _. Defined.

Definition upsert (submissionId questionId judgeId verdict : string) (reasoning : json)
    (rows : list EvaluationRow) : list EvaluationRow :=
  if decide (Exists (conflicts questionId judgeId) rows) then
    (fun e => if decide (conflicts questionId judgeId e)
              then {| ev_id := ev_id e; ev_submission_id := submissionId;
                      ev_question_id := questionId; ev_judge_id := judgeId;
                      ev_verdict := verdict; ev_reasoning := reasoning |}
              else e) <$> rows
  else rows ++ [ {| ev_id := fresh (ev_id <$> rows); ev_submission_id := submissionId;
                    ev_question_id := questionId; ev_judge_id := judgeId;
                    ev_verdict := verdict; ev_reasoning := reasoning |} ].

Definition saveEvaluation (submissionId questionId judgeId verdict : string)
    (reasoning : json) : M unit :=
  round_trip;;
  fun w => (Return tt,
            set_evaluations (upsert submissionId questionId judgeId verdict reasoning
                                    (evaluations w)) w).

(** ** The evaluation orchestrator ([evaluate.ts]) *)

Definition failure_result (assignment : Assignment) (e : thrown) : EvaluationResult :=
  {| questionId := question_id assignment; judgeId := judge_id assignment;
     verdict := "inconclusive"; success := false;
     error := Some (message_or_unknown e) |}.

Definition evaluateAssignment (assignment : Assignment) (judge : JudgeData)
    (question : QuestionData) (openaiApiKey : string) : M EvaluationResult :=
  St.try_catch
    (let* result := callOpenAI openaiApiKey (system_prompt judge) (question_text question)
                      (question_type question) (answer_json question) (model judge) in
     saveEvaluation (submission_id question) (question_id assignment) (judge_id assignment)
                    (oa_verdict result) (or_else (Some (oa_reasoning result)) JNull);;
     St.ret {| questionId := question_id assignment; judgeId := judge_id assignment;
               verdict := oa_verdict result; success := true; error := None |})
    (fun e =>
       St.try_catch
         (saveEvaluation (submission_id question) (question_id assignment)
                         (judge_id assignment) "inconclusive"
                         (JStr ("Error: " +:+ message_or_unknown e)))
         (fun _ => St.ret tt);;
       St.ret (failure_result assignment e)).

(** ** The batch runner ([index.ts]) *)

(** The request as the handler reads it: its method and what [req.json ()]
    resolves to (or rejects with). *)
Record Request : Type := {
  method : string;
  json_body : outcome EvaluationRequest;
}.

(** The object serialized into the response body. *)
Inductive response_body : Type :=
| PlainText (text : string)
| SuccessBody (processed passed failed inconclusive : nat) (results : list EvaluationResult)
| ErrorBody (message : string).

Record HttpResponse : Type := {
  status : nat;
  body : response_body;
}.

Definition successResponse (results : list EvaluationResult) : HttpResponse :=
  {| status := 200;
     body := SuccessBody
       (length results)
       (length (filter (fun r => verdict r = "pass") results))
       (length (filter (fun r => verdict r = "fail") results))
       (length (filter (fun r => verdict r = "inconclusive") results))
       results |}.

Definition errorResponse (message : string) (status : nat) : HttpResponse :=
  {| status := status; body := ErrorBody message |}.

(** [!s] for a [string | undefined] *)
Definition missing (s : option string) : bool :=
  match s with
  | Some s => Str.eqb s ""
  | None => true
  end.

(** [e instanceof Error && e.message.includes (text)] *)
Definition is_Error_about (e : thrown) (text : string) : bool :=
  match e with
  | JsError _ m => Str.includes m text
  | NotAnError => false
  end.

(** The [for ... of] loop over the assignments. *)
Fixpoint process (judgeMap : gmap string JudgeData) (questionMap : gmap string QuestionData)
    (openaiApiKey : string) (assignments : list Assignment)
    (results : list EvaluationResult) : M (list EvaluationResult) :=
  match assignments with
  | [] => St.ret results
  | assignment :: rest =>
      match judgeMap !! judge_id assignment, questionMap !! question_id assignment with
      | Some judge, Some question =>
          let* result := evaluateAssignment assignment judge question openaiApiKey in
          process judgeMap questionMap openaiApiKey rest (results ++ [result])
      | _, _ => process judgeMap questionMap openaiApiKey rest results
      end
  end.

Definition buildJudgeMap (judges : list JudgeData) : gmap string JudgeData :=
  foldl (fun judgeMap j => <[id j := j]> judgeMap) ∅ judges.

Definition buildQuestionMap (questions : list QuestionData) (answerMap : gmap string json)
    : gmap string QuestionData :=
  foldl (fun questionMap q =>
           <[q_id q := {| q_id := q_id q; question_text := question_text q;
                          question_type := question_type q;
                          answer_json := answerMap !! q_id q;
                          submission_id := submission_id q |}]> questionMap)
        ∅ questions.

(** Steps 5 to 9 of the handler, once the assignments are resolved. *)
Definition run_assignments (openaiApiKey userId : string) (questions : list QuestionData)
    (questionIds : list string) (answerMap : gmap string json)
    (assignments : list Assignment) : M HttpResponse :=
  (* [...new Set (...)]: only membership in [judgeIds] and its emptiness are used *)
  let judgeIds := elements (list_to_set (judge_id <$> assignments) : gset string) in
  let* judges :=
    St.try_catch (let* js := getJudgesForUser judgeIds userId in St.ret (Some js))
      (fun error => if is_Error_about error "No judges found" then St.ret None
                    else St.throw error) in
  match judges with
  | None => St.ret (successResponse [])
  | Some judges =>
      deleteOldEvaluations questionIds assignments;;
      let judgeMap := buildJudgeMap judges in
      let questionMap := buildQuestionMap questions answerMap in
      let* results := process judgeMap questionMap openaiApiKey assignments [] in
      St.ret (successResponse results)
  end.

Definition serve (req : Request) : M HttpResponse :=
  if Str.eqb (method req) "OPTIONS" then St.ret {| status := 200; body := PlainText "ok" |}
  else
    St.try_catch
      (match OPENAI_SECRET_KEY env with
       | Some key =>
           if Str.eqb key ""
           then St.throw (new_Error "OPENAI_SECRET_KEY not configured in environment variables")
           else
             let* request := St.lift (json_body req) in
             match workspaceId request, userId request with
             | Some workspace, Some user =>
                 if missing (workspaceId request) || missing (userId request)
                 then St.ret (errorResponse "Missing workspaceId or userId" 400)
                 else
                   let* submissionIds := getSubmissionsForWorkspace workspace in
                   let* questions := getQuestionsForSubmissions submissionIds in
                   let questionIds := q_id <$> questions in
                   let* answerMap := getAnswersForQuestions questionIds in
                   let* assignments :=
                     St.try_catch
                       (let* found := getJudgeAssignments questionIds in St.ret (Some found))
                       (fun error =>
                          if is_Error_about error "No judge assignments found"
                          then St.ret None else St.throw error) in
                   match assignments with
                   | None => St.ret (successResponse [])
                   | Some assignments =>
                       run_assignments key user questions questionIds answerMap assignments
                   end
             | _, _ => St.ret (errorResponse "Missing workspaceId or userId" 400)
             end
       | None => St.throw (new_Error "OPENAI_SECRET_KEY not configured in environment variables")
       end)
      (fun error => St.ret (errorResponse (message_or_unknown error) 500)).

End Pipeline.

(** ** A reference runtime

    The closed examples run the pipeline on a runtime that implements
    [JSON.parse] for the JSON texts they use: ASCII text, the two-character
    escapes, integer numbers below 2^53, and that prints the same values.
    A text outside that subset (a fraction, an exponent, a [\u] escape) is
    reported as not parsed, a number outside it as not printed; no theorem
    about the pipeline depends on this runtime. *)

Module Reference.

Definition is_space (c : ascii) : bool :=
  match Ascii.nat_of_ascii c with
  | 32 | 9 | 10 | 13 => true
  | _ => false
  end.

Fixpoint skip_space (s : string) : string :=
  match s with
  | String c rest => if is_space c then skip_space rest else s
  | EmptyString => s
  end.

Definition digit (c : ascii) : option Z :=
  let n := Ascii.nat_of_ascii c in
  if (48 <=? n)%nat && (n <=? 57)%nat then Some (Z.of_nat (n - 48)) else None.

(** The digits at the head of [s], as a number, and what follows them. *)
Fixpoint digits (acc : Z) (s : string) : Z * string :=
  match s with
  | String c rest =>
      match digit c with
      | Some d => digits (10 * acc + d) rest
      | None => (acc, s)
      end
  | EmptyString => (acc, s)
  end.

Definition starts_fraction (s : string) : bool :=
  match s with
  | String c _ => bool_decide (c = "."%char ∨ c = "e"%char ∨ c = "E"%char)
  | EmptyString => false
  end.

Definition natural (s : string) : option (float * string) :=
  match s with
  | String c rest =>
      match digit c with
      | Some d =>
          let '(n, rest') := digits d rest in
          if bool_decide (d = 0 ∧ rest' ≠ rest)%Z then None
          else if starts_fraction rest' then None
          else if (n <? 2 ^ 53)%Z then Some (PrimFloat.of_uint63 (Uint63.of_Z n), rest')
          else None
      | None => None
      end
  | EmptyString => None
  end.

Definition number (s : string) : option (json * string) :=
  match s with
  | String "-"%char rest =>
      match natural rest with
      | Some (x, rest') => Some (JNum (PrimFloat.opp x), rest')
      | None => None
      end
  | _ =>
      match natural s with
      | Some (x, rest') => Some (JNum x, rest')
      | None => None
      end
  end.

Definition escape (c : ascii) : option ascii :=
  match Ascii.nat_of_ascii c with
  | 34 => Some "034"%char
  | 92 => Some "092"%char
  | 47 => Some "/"%char
  | 98 => Some "008"%char
  | 102 => Some "012"%char
  | 110 => Some "010"%char
  | 114 => Some "013"%char
  | 116 => Some "009"%char
  | _ => None
  end.

(** The characters of a string literal after its opening quote. *)
Fixpoint chars (s : string) : option (string * string) :=
  match s with
  | String c rest =>
      if bool_decide (c = "034"%char) then Some ("", rest)
      else if bool_decide (c = "092"%char) then
        match rest with
        | String e rest' =>
            match escape e, chars rest' with
            | Some c', Some (text, after) => Some (String c' text, after)
            | _, _ => None
            end
        | EmptyString => None
        end
      else if (Ascii.nat_of_ascii c <? 32)%nat then None
      else
        match chars rest with
        | Some (text, after) => Some (String c text, after)
        | None => None
        end
  | EmptyString => None
  end.

Definition literal (word : string) (v : json) (s : string) : option (json * string) :=
  if Str.startsWith s word
  then Some (v, String.substring (String.length word) (String.length s) s)
  else None.

(** A later member replaces an earlier one of the same key. *)
Definition add_member (k : string) (v : json) (members : list (string * json))
    : list (string * json) :=
  match Js.assoc k members with
  | Some _ => members
  | None => (k, v) :: members
  end.

Fixpoint value (fuel : nat) (s : string) : option (json * string) :=
  match fuel with
  | 0 => None
  | S fuel =>
      match skip_space s with
      | String c rest =>
          if bool_decide (c = "n"%char) then literal "null" JNull (String c rest)
          else if bool_decide (c = "t"%char) then literal "true" (JBool true) (String c rest)
          else if bool_decide (c = "f"%char) then literal "false" (JBool false) (String c rest)
          else if bool_decide (c = "034"%char) then
            match chars rest with
            | Some (text, after) => Some (JStr text, after)
            | None => None
            end
          else if bool_decide (c = "["%char) then
            match skip_space rest with
            | String "]"%char after => Some (JArr [], after)
            | _ =>
                match items fuel rest with
                | Some (l, after) => Some (JArr l, after)
                | None => None
                end
            end
          else if bool_decide (c = "{"%char) then
            match skip_space rest with
            | String "}"%char after => Some (JObj [], after)
            | _ =>
                match members fuel rest with
                | Some (l, after) => Some (JObj l, after)
                | None => None
                end
            end
          else number (String c rest)
      | EmptyString => None
      end
  end
with items (fuel : nat) (s : string) : option (list json * string) :=
  match fuel with
  | 0 => None
  | S fuel =>
      match value fuel s with
      | Some (v, after) =>
          match skip_space after with
          | String ","%char rest =>
              match items fuel rest with
              | Some (l, after') => Some (v :: l, after')
              | None => None
              end
          | String "]"%char rest => Some ([v], rest)
          | _ => None
          end
      | None => None
      end
  end
with members (fuel : nat) (s : string) : option (list (string * json) * string) :=
  match fuel with
  | 0 => None
  | S fuel =>
      match skip_space s with
      | String "034"%char rest =>
          match chars rest with
          | Some (k, after) =>
              match skip_space after with
              | String ":"%char rest' =>
                  match value fuel rest' with
                  | Some (v, after') =>
                      match skip_space after' with
                      | String ","%char rest'' =>
                          match members fuel rest'' with
                          | Some (l, after'') => Some (add_member k v l, after'')
                          | None => None
                          end
                      | String "}"%char rest'' => Some ([(k, v)], rest'')
                      | _ => None
                      end
                  | None => None
                  end
              | _ => None
              end
          | None => None
          end
      | _ => None
      end
  end.

Definition parse (text : string) : option json :=
  match value (S (String.length text)) text with
  | Some (v, after) => if Str.eqb (skip_space after) "" then Some v else None
  | None => None
  end.

(** *** Printing *)

(** The integer a double stands for, when it is one of magnitude at most
    2^53. *)
Definition integer (x : float) : option Z :=
  match FloatOps.Prim2SF x with
  | SpecFloat.S754_zero _ => Some 0%Z
  | SpecFloat.S754_finite sign m e =>
      let magnitude :=
        if (0 <=? e)%Z then Some (Z.pos m * 2 ^ e)%Z
        else if (Z.pos m mod 2 ^ (- e) =? 0)%Z then Some (Z.pos m / 2 ^ (- e))%Z
        else None in
      match magnitude with
      | Some n => if (n <=? 2 ^ 53)%Z then Some (if sign then (- n)%Z else n) else None
      | None => None
      end
  | _ => None
  end.

Definition not_finite (x : float) : bool :=
  match FloatOps.Prim2SF x with
  | SpecFloat.S754_infinity _ | SpecFloat.S754_nan => true
  | _ => false
  end.

Definition hex_digit (n : nat) : ascii :=
  Ascii.ascii_of_nat (if (n <? 10)%nat then 48 + n else 87 + n).

Definition quote_char (c : ascii) : string :=
  match Ascii.nat_of_ascii c with
  | 34 => "\" +:+ Str.dq
  | 92 => "\\"
  | 8 => "\b"
  | 12 => "\f"
  | 10 => "\n"
  | 13 => "\r"
  | 9 => "\t"
  | n => if (n <? 32)%nat
         then "\u00" +:+ String (hex_digit (n / 16)) (String (hex_digit (n mod 16)) "")
         else String c ""
  end.

Fixpoint quote_chars (s : string) : string :=
  match s with
  | String c rest => quote_char c +:+ quote_chars rest
  | EmptyString => ""
  end.

Definition quote (s : string) : string := Str.dq +:+ quote_chars s +:+ Str.dq.

Fixpoint join (sep : string) (parts : list string) : string :=
  match parts with
  | [] => ""
  | [part] => part
  | part :: rest => part +:+ sep +:+ join sep rest
  end.

Fixpoint all_some {A} (l : list (option A)) : option (list A) :=
  match l with
  | [] => Some []
  | Some a :: rest => cons a <$> all_some rest
  | None :: _ => None
  end.

(** [JSON.stringify (v, null, 2)] at the current indentation. *)
Fixpoint stringify_at (indent : string) (v : json) : option string :=
  let inner := indent +:+ "  " in
  match v with
  | JNull => Some "null"
  | JBool b => Some (if b then "true" else "false")
  | JNum x => if not_finite x then Some "null" else pretty <$> integer x
  | JStr s => Some (quote s)
  | JArr [] => Some "[]"
  | JArr items =>
      match all_some (map (stringify_at inner) items) with
      | Some parts =>
          Some ("[" +:+ Str.nl +:+ inner +:+ join ("," +:+ Str.nl +:+ inner) parts
                +:+ Str.nl +:+ indent +:+ "]")
      | None => None
      end
  | JObj [] => Some "{}"
  | JObj members =>
      match all_some (map (fun m => match stringify_at inner (snd m) with
                                    | Some text => Some (quote (fst m) +:+ ": " +:+ text)
                                    | None => None
                                    end) members) with
      | Some parts =>
          Some ("{" +:+ Str.nl +:+ inner +:+ join ("," +:+ Str.nl +:+ inner) parts
                +:+ Str.nl +:+ indent +:+ "}")
      | None => None
      end
  end.

Definition stringify (v : json) : string := default "" (stringify_at "" v).

(** The string conversion of a template literal. *)
Fixpoint to_string_opt (v : json) : option string :=
  match v with
  | JNull => Some "null"
  | JBool b => Some (if b then "true" else "false")
  | JNum x =>
      match FloatOps.Prim2SF x with
      | SpecFloat.S754_nan => Some "NaN"
      | SpecFloat.S754_infinity sign => Some (if sign then "-Infinity" else "Infinity")
      | _ => pretty <$> integer x
      end
  | JStr s => Some s
  | JArr items =>
      join "," <$> all_some (map (fun i => match i with
                                           | JNull => Some ""
                                           | _ => to_string_opt i
                                           end) items)
  | JObj _ => Some "[object Object]"
  end.

Definition to_string (v : json) : string := default "" (to_string_opt v).

(** The runtime, given the database faults and the provider. *)
Definition runtime (faults : nat -> option thrown)
    (answers : list ChatRequest -> fetch_result) : Env :=
  {| db_error := faults;
     provider := answers;
     JSON_parse := parse;
     parse_error := fun _ => "Unexpected token in JSON";
     JSON_stringify := stringify;
     ToString := to_string;
     OPENAI_SECRET_KEY := Some "sk-reference" |}.

Definition no_faults : nat -> option thrown := fun _ => None.

End Reference.

(** * Vocabulary of the statements *)

(** The result of the validator's [catch] branch. *)
Definition parse_failure : OpenAIResponse :=
  {| oa_verdict := "inconclusive";
     oa_reasoning := JStr "Failed to parse LLM response as JSON" |}.

(** The verdicts an evaluation may carry. *)
Definition verdicts : list string := ["pass"; "fail"; "inconclusive"].

(** [s] contains [sub]. *)
Definition contains (s sub : string) : Prop :=
  exists before after, s = before +:+ sub +:+ after.

(** A text between double quotes. *)
Definition quoted (s : string) : string := Str.dq +:+ s +:+ Str.dq.

(** The given literals, quoted and separated by bars. *)
Fixpoint alternatives (literals : list string) : string :=
  match literals with
  | [] => ""
  | [v] => quoted v
  | v :: rest => quoted v +:+ " | " +:+ alternatives rest
  end.

(** The JSON object the model is told to answer with: a [verdict] field that
    is one of the three literals and a [reasoning] field, whose placeholder
    may carry a hint. *)
Definition response_format (hint : string) : string :=
  "{" +:+ quoted "verdict" +:+ ": " +:+ alternatives verdicts +:+ ", "
  +:+ quoted "reasoning" +:+ ": " +:+ quoted ("your explanation" +:+ hint) +:+ "}".

(** The question types that have a template of their own. *)
Definition known_types : list string :=
  ["multiple_choice"; "single_choice_with_reasoning"; "free_form"].

Definition is_known (questionType : option string) : bool :=
  match questionType with
  | Some t => bool_decide (t ∈ known_types)
  | None => false
  end.

(** [parsed.k] for a parsed value other than [null]: the member of an
    object, [undefined] on anything else. *)
Definition member (parsed : json) (k : string) : jsval :=
  Prop_access.get_opt (Some parsed) k.

(** A result whose verdict is one of the three literals. *)
Definition valid_result (r : EvaluationResult) : Prop := verdict r ∈ verdicts.

(** The responses the handler gives: the preflight answer, a success summary
    of valid results, or an error with a status other than 200. *)
Inductive served : HttpResponse -> Prop :=
| served_preflight : served {| status := 200; body := PlainText "ok" |}
| served_success results : Forall valid_result results -> served (successResponse results)
| served_error message status : status <> 200 -> served (errorResponse message status).

(** What a workspace holds, as the handler resolves it. *)
Definition workspace_submissions (w : World) (workspace : string) : list SubmissionRow :=
  filter (fun s => sub_workspace_id s = workspace) (submissions w).

Definition workspace_questions (w : World) (workspace : string) : list QuestionRow :=
  filter (fun q => qrow_submission_id q ∈ (sub_id <$> workspace_submissions w workspace))
         (questions w).

Definition workspace_assignments (w : World) (workspace : string) : list Assignment :=
  filter (fun a => question_id a ∈ (qrow_id <$> workspace_questions w workspace))
         (judge_assignments w).

(** The judges assigned in the workspace that the user owns. *)
Definition owned_judges (w : World) (workspace user : string) : list JudgeRow :=
  filter (fun j => jrow_id j ∈ (judge_id <$> workspace_assignments w workspace)
                   ∧ jrow_user_id j = user)
         (judges w).

(** A text that names the temperature and says it is not supported. *)
Definition rejects_temperature (text : string) : Prop :=
  contains text "temperature" /\ contains text "does not support".

(** An error object with the code and the param of an unsupported
    temperature. *)
Definition code_and_param (error : jsval) : Prop :=
  Prop_access.get_opt error "code" = Some (JStr "unsupported_value")
  /\ Prop_access.get_opt error "param" = Some (JStr "temperature").

(** The first responses after which [callOpenAI] retries: the body parses as
    JSON whose error has the code and param of an unsupported temperature, or
    an error message that is a text naming both words (or a list holding
    both); or the body cannot be inspected that way (it is not JSON, it is
    [null], or the error message is some other truthy value, so that
    searching it throws) and the raw body names both words. *)
Definition retry_pattern (env : Env) (errorText : string) : Prop :=
  match JSON_parse env errorText with
  | Some JNull => rejects_temperature errorText
  | Some data =>
      let error := member data "error" in
      code_and_param error
      \/ match Prop_access.get_opt error "message" with
         | Some (JStr message) => rejects_temperature message
         | Some (JArr items) => JStr "temperature" ∈ items /\ JStr "does not support" ∈ items
         | Some other => Js.truthy (Some other) = true /\ rejects_temperature errorText
         | None => False
         end
  | None => rejects_temperature errorText
  end.

(** The pattern as the claim C3 words it: the error of the response has the
    code and param, or its error message contains both words; the raw text
    of a body that is not JSON is counted as its error message. *)
Definition claimed_retry_pattern (env : Env) (errorText : string) : Prop :=
  match JSON_parse env errorText with
  | Some data =>
      let error := member data "error" in
      code_and_param error
      \/ exists message, Prop_access.get_opt error "message" = Some (JStr message)
                         /\ rejects_temperature message
  | None => rejects_temperature errorText
  end.

(** An identifier without a colon, as every UUID is. *)
Fixpoint colon_free (s : string) : bool :=
  match s with
  | EmptyString => true
  | String c rest => negb (Ascii.eqb c ":"%char) && colon_free rest
  end.

(** The evaluations of the given questions all belong to an assignment. *)
Definition reconciled (w : World) (questionIds : list string)
    (assignments : list Assignment) : Prop :=
  forall e, e ∈ evaluations w -> ev_question_id e ∈ questionIds ->
    exists a, a ∈ assignments /\ question_id a = ev_question_id e
              /\ judge_id a = ev_judge_id e.

(** The identifiers of the rows involved are UUIDs. *)
Definition uuid_keys (w : World) : Prop :=
  (forall e, e ∈ evaluations w -> colon_free (ev_question_id e) = true) /\
  (forall a, a ∈ judge_assignments w -> colon_free (question_id a) = true).

(** Worlds and runtimes of the closed examples. *)
Module Sample.

Definition rejecting : list ChatRequest -> fetch_result := fun _ => Rejects NotAnError.

Definition offline : Env := Reference.runtime Reference.no_faults rejecting.

(** A content the model may send: a verdict and its reasoning. *)
Definition verdict_text : string :=
  Reference.stringify (JObj [("verdict", JStr "fail"); ("reasoning", JStr "B is wrong")]).

(** A successful chat completion carrying [verdict_text]. *)
Definition completion : Response :=
  {| rs_status := 200;
     rs_text := Reference.stringify
       (JObj [("choices",
               JArr [JObj [("message", JObj [("content", JStr verdict_text)])]])]) |}.

(** A provider that always completes. *)
Definition online : Env := Reference.runtime Reference.no_faults (fun _ => Responds completion).

(** A rejection of the temperature, as the provider words it. *)
Definition unsupported_temperature : Response :=
  {| rs_status := 400;
     rs_text := Reference.stringify
       (JObj [("error",
               JObj [("message", JStr "Unsupported value: 'temperature' does not support 0 with this model.");
                     ("type", JStr "invalid_request_error");
                     ("param", JStr "temperature");
                     ("code", JStr "unsupported_value")])]) |}.

(** A failure whose error message is a number, and whose type names both
    words. *)
Definition odd_failure : Response :=
  {| rs_status := 400;
     rs_text := Reference.stringify
       (JObj [("error",
               JObj [("message", JNum (PrimFloat.of_uint63 400%uint63));
                     ("type", JStr "temperature does not support")])]) |}.

(** A provider that answers the first request with [first] and completes
    the next ones. *)
Definition scripted (first : Response) : Env :=
  Reference.runtime Reference.no_faults
    (fun log => match log with
                | [_] => Responds first
                | _ => Responds completion
                end).

Definition judge : JudgeData :=
  {| id := "J1"; name := "Strict"; system_prompt := "The correct answer is B.";
     model := "gpt-4" |}.

(** Workspace W1 holds submission S1 with questions Q1 (answered) and Q2
    (no answer row), both assigned to judge J1 of user U1.  Evaluation E1 is
    for the pair (Q1, J2), which is not assigned; E2 is for (Q1, J1); E3
    belongs to workspace W9.  Workspace W5 has a submission and no
    question; workspace W0 has nothing. *)
Definition world : World :=
  {| submissions := [ {| sub_id := "S1"; sub_workspace_id := "W1" |};
                      {| sub_id := "S5"; sub_workspace_id := "W5" |};
                      {| sub_id := "S9"; sub_workspace_id := "W9" |} ];
     questions := [ {| qrow_id := "Q1"; qrow_submission_id := "S1";
                       qrow_question_text := "Which option is prime?";
                       qrow_question_type := Some "multiple_choice" |};
                    {| qrow_id := "Q2"; qrow_submission_id := "S1";
                       qrow_question_text := "Why?";
                       qrow_question_type := None |};
                    {| qrow_id := "Q9"; qrow_submission_id := "S9";
                       qrow_question_text := "Anything else?";
                       qrow_question_type := Some "free_form" |} ];
     answers := [ {| ans_question_id := "Q1";
                     ans_answer_json := JObj [("choice", JStr "B")] |} ];
     judge_assignments := [ {| judge_id := "J1"; question_id := "Q1" |};
                            {| judge_id := "J1"; question_id := "Q2" |} ];
     judges := [ {| jrow_id := "J1"; jrow_user_id := "U1"; jrow_name := "Strict";
                    jrow_system_prompt := "The correct answer is B.";
                    jrow_model := "gpt-4" |};
                 {| jrow_id := "J2"; jrow_user_id := "U2"; jrow_name := "Lenient";
                    jrow_system_prompt := "Accept any answer.";
                    jrow_model := "gpt-5-mini" |} ];
     evaluations := [ {| ev_id := "E1"; ev_submission_id := "S1"; ev_question_id := "Q1";
                         ev_judge_id := "J2"; ev_verdict := "pass";
                         ev_reasoning := JStr "Accepted." |};
                      {| ev_id := "E2"; ev_submission_id := "S1"; ev_question_id := "Q1";
                         ev_judge_id := "J1"; ev_verdict := "fail";
                         ev_reasoning := JNull |};
                      {| ev_id := "E3"; ev_submission_id := "S9"; ev_question_id := "Q9";
                         ev_judge_id := "J1"; ev_verdict := "pass";
                         ev_reasoning := JNull |} ];
     db_calls := 0;
     http_log := [] |}.

Definition with_assignments (assignments : list Assignment) (w : World) : World :=
  {| submissions := submissions w; questions := questions w; answers := answers w;
     judge_assignments := assignments; judges := judges w;
     evaluations := evaluations w; db_calls := db_calls w; http_log := http_log w |}.

(** The same world once every assignment of W1 has been removed. *)
Definition unassigned : World := with_assignments [] world.

(** The same world with Q1 assigned to J2 only, a judge of another user. *)
Definition foreign_judge : World :=
  with_assignments [ {| judge_id := "J2"; question_id := "Q1" |} ] world.

(** The results of a run in which both assignments of W1 get the verdict
    [fail]. *)
Definition two_failures : list EvaluationResult :=
  [ {| questionId := "Q1"; judgeId := "J1"; verdict := "fail"; success := true;
       error := None |};
    {| questionId := "Q2"; judgeId := "J1"; verdict := "fail"; success := true;
       error := None |} ].

Definition post (workspace user : string) : Request :=
  {| method := "POST";
     json_body := Return {| workspaceId := Some workspace; userId := Some user |} |}.

End Sample.

(** The pair an evaluation row is unique for. *)
Definition pair_of (e : EvaluationRow) : string * string :=
  (ev_question_id e, ev_judge_id e).

(** The primary key and the unique constraint of [evaluations]. *)
Definition evaluation_keys (rows : list EvaluationRow) : Prop :=
  NoDup (ev_id <$> rows) /\ NoDup (pair_of <$> rows).


(** [w'] differs from [w] at most in the count of database round trips. *)
Definition quiet (w w' : World) : Prop :=
  submissions w' = submissions w /\ questions w' = questions w /\
  answers w' = answers w /\ judge_assignments w' = judge_assignments w /\
  judges w' = judges w /\ evaluations w' = evaluations w /\
  http_log w' = http_log w.

(** The tables a run only reads are the same in [w'] as in [w]. *)
Definition same_configuration (w w' : World) : Prop :=
  submissions w' = submissions w /\ questions w' = questions w /\
  answers w' = answers w /\ judge_assignments w' = judge_assignments w /\
  judges w' = judges w.

(** The request [callOpenAI] builds from its arguments. *)
Definition chat_request (apiKey systemPrompt userPrompt model : string)
    (temperature : option nat) : ChatRequest :=
  {| rq_bearer := apiKey; rq_model := model; rq_system := systemPrompt;
     rq_user := userPrompt; rq_temperature := temperature |}.

(** From [w] to [w'] at most [n] requests were sent, all satisfying [P]. *)
Definition sends (P : ChatRequest -> Prop) (n : nat) (w w' : World) : Prop :=
  exists sent, http_log w' = http_log w ++ sent /\ Forall P sent /\ length sent <= n.

(** The requests made for a judge and a question with a given key. *)
Definition request_for (env : Env) (openaiApiKey : string) (judge : JudgeData)
    (question : QuestionData) (q : ChatRequest) : Prop :=
  exists temperature,
    q = chat_request openaiApiKey (system_prompt judge)
          (buildTypeSpecificPrompt env (question_type question) (question_text question)
                                   (answer_json question))
          (model judge) temperature.

(** The pair a result, and an assignment, is about. *)
Definition result_pair (r : EvaluationResult) : string * string :=
  (questionId r, judgeId r).

Definition assignment_pair (a : Assignment) : string * string :=
  (question_id a, judge_id a).

(** A question row as [getQuestionsForSubmissions] returns it, and a judge
    row as [getJudgesForUser] does. *)
Definition question_data (q : QuestionRow) : QuestionData :=
  {| q_id := qrow_id q; question_text := qrow_question_text q;
     question_type := qrow_question_type q; answer_json := Some JNull;
     submission_id := qrow_submission_id q |}.

Definition judge_data (j : JudgeRow) : JudgeData :=
  {| id := jrow_id j; name := jrow_name j; system_prompt := jrow_system_prompt j;
     model := jrow_model j |}.

(** The answer rows of the questions of a workspace, and the map
    [getAnswersForQuestions] builds from answer rows. *)
Definition workspace_answers (w : World) (workspace : string) : list AnswerRow :=
  filter (fun a => ans_question_id a ∈ (qrow_id <$> workspace_questions w workspace))
         (answers w).

Definition answer_map (rows : list AnswerRow) : gmap string json :=
  foldl (fun answerMap a => <[ans_question_id a := ans_answer_json a]> answerMap) ∅ rows.

(** The answer to a CORS preflight. *)
Definition preflight : HttpResponse := {| status := 200; body := PlainText "ok" |}.

(** The maps the handler builds for a workspace and a user. *)
Definition judge_map (w : World) (workspace user : string) : gmap string JudgeData :=
  buildJudgeMap (judge_data <$> owned_judges w workspace user).

Definition question_map (w : World) (workspace : string) : gmap string QuestionData :=
  buildQuestionMap (question_data <$> workspace_questions w workspace)
                   (answer_map (workspace_answers w workspace)).

(** An evaluation row whose pair is among the assignments, and one that the
    reconciliation is to remove: of a given question, without assignment. *)
Definition assigned (assignments : list Assignment) (e : EvaluationRow) : Prop :=
  Exists (fun a => question_id a = ev_question_id e ∧ judge_id a = ev_judge_id e)
         assignments.

Definition stale (questionIds : list string) (assignments : list Assignment)
    (e : EvaluationRow) : Prop :=
  ev_question_id e ∈ questionIds ∧ ¬ assigned assignments e.

(** A judge of the table that the user owns. *)
Definition owned_by (w : World) (user : string) (judge : string) : Prop :=
  Exists (fun j => jrow_id j = judge ∧ jrow_user_id j = user) (judges w).

(** A request the handler may send for [req] in [w]: it carries the
    configured key, the system prompt and the model of a judge the user owns
    that is assigned in the workspace, and the prompt built from a question
    of the workspace and what the answer map holds for it. *)
Definition authorised (env : Env) (req : Request) (w : World) (q : ChatRequest) : Prop :=
  exists request workspace user judge question,
    json_body req = Return request /\
    workspaceId request = Some workspace /\ userId request = Some user /\
    OPENAI_SECRET_KEY env = Some (rq_bearer q) /\
    judge ∈ owned_judges w workspace user /\
    question ∈ workspace_questions w workspace /\
    rq_system q = jrow_system_prompt judge /\ rq_model q = jrow_model judge /\
    rq_user q = buildTypeSpecificPrompt env (qrow_question_type question)
                  (qrow_question_text question)
                  (answer_map (workspace_answers w workspace) !! qrow_id question).

(** * Properties *)

(** ** Strings: [includes] decides containment *)

Module StrFacts.

Lemma append_nil (s : string) : "" +:+ s = s.
Proof. reflexivity. Qed.

Lemma append_cons (c : Ascii.ascii) (s t : string) : String c s +:+ t = String c (s +:+ t).
Proof. reflexivity. Qed.

Lemma append_assoc (a b c : string) : (a +:+ b) +:+ c = a +:+ b +:+ c.
Proof.
  induction a as [| x a IH]; [done |].
  by rewrite !append_cons, IH.
Qed.

Lemma append_nil_r (s : string) : s +:+ "" = s.
Proof.
  induction s as [| c s IH]; [done |].
  by rewrite append_cons, IH.
Qed.

Lemma startsWith_spec (s p : string) :
  Str.startsWith s p = true <-> exists post, s = p +:+ post.
Proof.
  revert s. induction p as [| a p IH]; intros s; simpl.
  - split; [intros _; by exists s | done].
  - destruct s as [| b s].
    + split; [done | intros [post Hpost]; discriminate].
    + destruct (Ascii.eqb a b) eqn:Hab.
      * apply Ascii.eqb_eq in Hab as ->. rewrite IH.
        split; intros [post Hpost]; exists post; rewrite append_cons in *; congruence.
      * apply Ascii.eqb_neq in Hab.
        split; [done | intros [post Hpost]; rewrite append_cons in Hpost; congruence].
Qed.

Lemma includes_spec (s sub : string) :
  Str.includes s sub = true <-> exists pre post, s = pre +:+ sub +:+ post.
Proof.
  induction s as [| c s IH]; simpl.
  - rewrite orb_false_r, startsWith_spec. split.
    + intros [post Hpost]. by exists "", post.
    + intros [pre [post Hpost]]. destruct pre; [by exists post | discriminate].
  - rewrite orb_true_iff, startsWith_spec, IH. split.
    + intros [[post Hpost] | [pre [post Hpost]]].
      * by exists "", post.
      * exists (String c pre), post. by rewrite append_cons, Hpost.
    + intros [pre [post Hpost]]. destruct pre as [| x pre].
      * left. by exists post.
      * right. exists pre, post. rewrite append_cons in Hpost. congruence.
Qed.

Lemma includes_refl (s : string) : Str.includes s s = true.
Proof. apply includes_spec. exists "", "". by rewrite append_nil, append_nil_r. Qed.

Lemma includes_app_l (a b sub : string) :
  Str.includes a sub = true -> Str.includes (a +:+ b) sub = true.
Proof.
  rewrite !includes_spec. intros [pre [post ->]].
  exists pre, (post +:+ b). by rewrite !append_assoc.
Qed.

Lemma includes_app_r (a b sub : string) :
  Str.includes b sub = true -> Str.includes (a +:+ b) sub = true.
Proof.
  rewrite !includes_spec. intros [pre [post ->]].
  exists (a +:+ pre), post. by rewrite !append_assoc.
Qed.

End StrFacts.

Ltac find_substring :=
  solve [ apply StrFacts.includes_refl
        | apply StrFacts.includes_app_l; find_substring
        | apply StrFacts.includes_app_r; find_substring
        | vm_compute; reflexivity ].

(** Runs the monadic combinators of a goal one step further. *)
Ltac run :=
  cbv beta iota zeta delta
    [St.bind St.ret St.throw St.try_catch St.lift St.read select round_trip];
  cbn [fst snd tick set_evaluations log_request submissions questions answers
       judge_assignments judges evaluations db_calls http_log].

(** ** The prompt builder *)

(** C8: whatever the question type (one of the three known types, an
    unknown one, or none), the question text and the answer payload, the
    prompt contains the question text as it is and the JSON serialization of
    the answer payload (for the payload [undefined], which has none, the text
    [undefined] that the template prints in its place), and it contains the
    instruction to respond with JSON followed by the object to answer with:
    a [verdict] field that is one of the three literals and a [reasoning]
    field.  The instruction reads [Respond with JSON: ] for the three known
    types and [respond with JSON in this exact format: ] otherwise. *)
Theorem buildTypeSpecificPrompt_contents (env : Env) (questionType : option string)
    (questionText : string) (answerJson : jsval) :
  let prompt := buildTypeSpecificPrompt env questionType questionText answerJson in
  Str.includes prompt questionText = true /\
  Str.includes prompt
    (match answerJson with
     | Some answer => JSON_stringify env answer
     | None => "undefined"
     end) = true /\
  Str.includes prompt
    (if is_known questionType
     then "Respond with JSON: " +:+ response_format ""
     else "respond with JSON in this exact format: " +:+ response_format " here") = true /\
  Str.includes prompt (quoted "verdict") = true /\
  Forall (fun literal => Str.includes prompt (quoted literal) = true) verdicts /\
  Str.includes prompt (quoted "reasoning") = true.
Proof.
  unfold buildTypeSpecificPrompt, verdicts.
  assert (Hstr : interpolate (stringify_answer env answerJson)
                 = match answerJson with
                   | Some answer => JSON_stringify env answer
                   | None => "undefined"
                   end) by (by destruct answerJson).
  rewrite Hstr. clear Hstr.
  set (answerStr := match answerJson with Some _ => _ | None => _ end).
  clearbody answerStr. rewrite !Forall_cons, Forall_nil.
  assert (Hknown : forall t, t ∈ known_types -> is_known (Some t) = true)
    by (intros t Ht; by apply bool_decide_eq_true_2).
  destruct questionType as [t |].
  2:{ cbn [is_known]. unfold default_prompt. cbn [Str.lines]. cbv zeta.
      split_and!; try done; find_substring. }
  unfold Str.eqb.
  destruct (decide (t = "multiple_choice")) as [-> | H1].
  { rewrite bool_decide_eq_true_2, Hknown by (done || vm_compute; repeat constructor).
    unfold multiple_choice_prompt. cbn [Str.lines]. cbv zeta.
    split_and!; try done; find_substring. }
  rewrite (bool_decide_eq_false_2 _ H1).
  destruct (decide (t = "single_choice_with_reasoning")) as [-> | H2].
  { rewrite bool_decide_eq_true_2, Hknown by (done || vm_compute; repeat constructor).
    unfold single_choice_with_reasoning_prompt. cbn [Str.lines]. cbv zeta.
    split_and!; try done; find_substring. }
  rewrite (bool_decide_eq_false_2 _ H2).
  destruct (decide (t = "free_form")) as [-> | H3].
  { rewrite bool_decide_eq_true_2, Hknown by (done || vm_compute; repeat constructor).
    unfold free_form_prompt. cbn [Str.lines]. cbv zeta.
    split_and!; try done; find_substring. }
  rewrite (bool_decide_eq_false_2 _ H3).
  assert (Hunknown : is_known (Some t) = false).
  { apply bool_decide_eq_false_2. unfold known_types.
    rewrite !elem_of_cons, elem_of_nil. tauto. }
  rewrite Hunknown.
  unfold default_prompt. cbn [Str.lines]. cbv zeta. split_and!; try done; find_substring.
Qed.

(** ** The response validator *)

(** C4: for a content string that is not valid JSON, the response validator
    returns exactly the verdict [inconclusive] with the reasoning
    [Failed to parse LLM response as JSON]; being a total function into
    [OpenAIResponse], it throws nothing. *)
Theorem parseAndValidate_invalid_json (env : Env) (content : string) :
  JSON_parse env content = None ->
  parseAndValidate env content = parse_failure.
Proof.
  intros Hparse. unfold parseAndValidate, json_parse.
  rewrite Hparse. reflexivity.
Qed.

Lemma parseAndValidate_invalid_json_witness :
  JSON_parse Sample.offline
             "The answer passes." = None /\
  parseAndValidate Sample.offline
                   "The answer passes." = parse_failure.
Proof.
  split; [reflexivity |].
  apply (parseAndValidate_invalid_json
           Sample.offline
           "The answer passes.").
  reflexivity.
Defined.

Lemma validateVerdict_allowed (verdict : string) :
  verdict ∈ verdicts -> validateVerdict (Some (JStr verdict)) = verdict.
Proof.
  unfold verdicts. rewrite !elem_of_cons, elem_of_nil.
  intros [-> | [-> | [-> | []]]]; reflexivity.
Qed.

Lemma validateVerdict_in (v : jsval) : validateVerdict v ∈ verdicts.
Proof.
  unfold validateVerdict, verdicts.
  destruct (existsb _ _) eqn:Hany; [| set_solver].
  apply existsb_exists in Hany as [lit [Hlit Hv]].
  destruct v as [[| | | s | |] |]; try discriminate.
  apply bool_decide_eq_true in Hv as ->.
  by apply list_elem_of_In.
Qed.

Lemma validateVerdict_other (v : jsval) :
  (forall s, v = Some (JStr s) -> s ∉ verdicts) -> validateVerdict v = "inconclusive".
Proof.
  intros Hother. unfold validateVerdict.
  destruct (existsb _ _) eqn:Hany; [| reflexivity].
  apply existsb_exists in Hany as [lit [Hlit Hv]].
  destruct v as [[| | | s | |] |]; try discriminate.
  apply bool_decide_eq_true in Hv as ->.
  destruct (Hother lit eq_refl). by apply list_elem_of_In.
Qed.

(** The claim of C5 fails on the content [null]: it parses as JSON and
    carries no reasoning, yet the reasoning returned is not the empty string
    but the text of the parse failure. *)
Lemma parseAndValidate_null_content :
  JSON_parse Sample.offline "null" = Some JNull /\
  member JNull "reasoning" = None /\
  oa_reasoning (parseAndValidate Sample.offline "null") <> JStr "" /\
  parseAndValidate Sample.offline "null" = parse_failure.
Proof. repeat split; [vm_compute; congruence]. Qed.

(** C5, amended: for a content string that parses as a JSON value other than
    [null], the validator returns the parsed verdict when it is one of
    [pass], [fail], [inconclusive], and [inconclusive] for any other or
    missing verdict; it returns the parsed reasoning when that is truthy (any
    non-empty string is) and the empty string when it is missing or falsy.
    For the content [null] it returns the parse-failure result. *)
Theorem parseAndValidate_valid_json (env : Env) (content : string) (parsed : json) :
  JSON_parse env content = Some parsed ->
  (parsed <> JNull ->
     (forall s, member parsed "verdict" = Some (JStr s) -> s ∈ verdicts ->
        oa_verdict (parseAndValidate env content) = s) /\
     ((forall s, member parsed "verdict" = Some (JStr s) -> s ∉ verdicts) ->
        oa_verdict (parseAndValidate env content) = "inconclusive") /\
     (forall r, member parsed "reasoning" = Some r -> Js.truthy (Some r) = true ->
        oa_reasoning (parseAndValidate env content) = r) /\
     (Js.truthy (member parsed "reasoning") = false ->
        oa_reasoning (parseAndValidate env content) = JStr "")) /\
  (parsed = JNull -> parseAndValidate env content = parse_failure).
Proof.
  intros Hparse. unfold parseAndValidate, json_parse. rewrite Hparse.
  split.
  - intros Hnull.
    assert (Hget : forall k, Prop_access.get (Some parsed) k = Return (member parsed k))
      by (intros k; destruct parsed; done).
    cbn [Exn.bind]. rewrite !Hget. cbn [Exn.bind Exn.try_catch oa_verdict oa_reasoning].
    repeat split.
    + intros s -> Hs. by apply validateVerdict_allowed.
    + apply validateVerdict_other.
    + intros r -> Hr. unfold or_else. by rewrite Hr.
    + intros Hr. unfold or_else. destruct (member parsed "reasoning"); [by rewrite Hr | done].
  - intros ->. reflexivity.
Qed.

Lemma parseAndValidate_valid_json_witness :
  oa_verdict (parseAndValidate Sample.offline Sample.verdict_text) = "fail" /\
  oa_reasoning (parseAndValidate Sample.offline Sample.verdict_text) = JStr "B is wrong".
Proof.
  destruct (parseAndValidate_valid_json Sample.offline Sample.verdict_text
              (JObj [("verdict", JStr "fail"); ("reasoning", JStr "B is wrong")]))
    as [Hobject _]; [reflexivity |].
  destruct Hobject as (Hverdict & _ & Hreasoning & _); [discriminate |].
  split.
  - apply Hverdict; [reflexivity |]. vm_compute. set_solver.
  - apply Hreasoning; reflexivity.
Defined.

(** ** The model caller *)

Lemma parseAndValidate_verdict (env : Env) (content : string) :
  oa_verdict (parseAndValidate env content) ∈ verdicts.
Proof.
  unfold parseAndValidate.
  destruct (json_parse env content) as [parsed | e]; [| set_solver].
  cbn [Exn.bind].
  destruct (Prop_access.get parsed "verdict") as [verdict | e]; [| set_solver].
  cbn [Exn.bind].
  destruct (Prop_access.get parsed "reasoning") as [reasoning | e]; [| set_solver].
  apply validateVerdict_in.
Qed.

Lemma finish_verdict (env : Env) (model : string) (r : Response) (res : OpenAIResponse) :
  finish env model r = Return res -> oa_verdict res ∈ verdicts.
Proof.
  unfold finish. destruct (negb (ok r)); [done |].
  destruct (json_parse env (rs_text r)) as [data | e]; [| done]. cbn [Exn.bind].
  destruct (Prop_access.get data "choices") as [choices | e]; [| done]. cbn [Exn.bind].
  destruct (Prop_access.first choices) as [choice | e]; [| done]. cbn [Exn.bind].
  destruct (Prop_access.get_opt _ "content") as [c |]; [| done].
  destruct (Js.truthy (Some c)); [| done].
  intros [= <-]. apply parseAndValidate_verdict.
Qed.

(** Every request of [makeRequest] is logged, whatever comes of it. *)
Lemma makeRequest_run (env : Env) (apiKey systemPrompt userPrompt model : string)
    (includeTemperature : bool) (w : World) :
  let q := {| rq_bearer := apiKey; rq_model := model; rq_system := systemPrompt;
              rq_user := userPrompt;
              rq_temperature := if includeTemperature then Some 0 else None |} in
  snd (makeRequest env apiKey systemPrompt userPrompt model includeTemperature w)
    = log_request q w /\
  match provider env (http_log w ++ [q]) with
  | Responds r =>
      fst (makeRequest env apiKey systemPrompt userPrompt model includeTemperature w) = Return r
  | Rejects e =>
      exists e', fst (makeRequest env apiKey systemPrompt userPrompt model includeTemperature w)
                 = Throw e'
  end.
Proof.
  unfold makeRequest, fetch. run.
  destruct (provider env _) as [r | e]; [done |].
  destruct (is_AbortError e); run; eauto.
Qed.

Lemma callOpenAI_result (env : Env) (apiKey systemPrompt questionText : string)
    (questionType : option string) (answerJson : jsval) (model : string)
    (w w' : World) (res : OpenAIResponse) :
  callOpenAI env apiKey systemPrompt questionText questionType answerJson model w
    = (Return res, w') ->
  exists r, finish env model r = Return res.
Proof.
  unfold callOpenAI, makeRequest, fetch. run.
  destruct (provider env _) as [r1 | e1]; [| destruct (is_AbortError e1); done].
  destruct (negb (ok r1)); [| intros [= H _]; eauto].
  destruct (shouldRetry env (rs_text r1)).
  - run. destruct (provider env _) as [r2 | e2]; [| destruct (is_AbortError e2); done].
    intros [= H _]; eauto.
  - run. destruct (first_error_message env (rs_text r1)); done.
Qed.

Lemma includes_contains (s sub : string) : Str.includes s sub = true <-> contains s sub.
Proof. apply StrFacts.includes_spec. Qed.

Lemma rejects_temperature_includes (text : string) :
  Str.includes text "temperature" && Str.includes text "does not support" = true
  <-> rejects_temperature text.
Proof. unfold rejects_temperature. by rewrite andb_true_iff, !includes_contains. Qed.

Lemma array_includes (items : list json) (lit : string) :
  existsb (fun i => Js.is_string (Some i) lit) items = true <-> JStr lit ∈ items.
Proof.
  rewrite existsb_exists. split.
  - intros [i [Hi Hlit]]. destruct i; try discriminate.
    apply bool_decide_eq_true in Hlit as ->. by apply list_elem_of_In.
  - intros Hin. exists (JStr lit). split; [by apply list_elem_of_In |].
    by apply bool_decide_eq_true.
Qed.

Lemma is_string_spec (v : jsval) (lit : string) :
  Js.is_string v lit = true <-> v = Some (JStr lit).
Proof.
  destruct v as [[| | | s | |] |]; simpl; try (split; [discriminate | congruence]).
  unfold Str.eqb. rewrite bool_decide_eq_true. split; congruence.
Qed.

Lemma code_and_param_spec (error : jsval) :
  Js.is_string (Prop_access.get_opt error "code") "unsupported_value"
  && Js.is_string (Prop_access.get_opt error "param") "temperature" = true
  <-> code_and_param error.
Proof. unfold code_and_param. by rewrite andb_true_iff, !is_string_spec. Qed.

(** The retry decision on a body that parsed to something other than [null],
    whose [error] member is [error]. *)
Lemma retry_decision (errorText : string) (error : jsval) :
  Exn.try_catch
    (if Js.is_string (Prop_access.get_opt error "code") "unsupported_value"
        && Js.is_string (Prop_access.get_opt error "param") "temperature"
     then Return true
     else
       match Prop_access.get_opt error "message" with
       | Some message =>
           if Js.truthy (Some message) then
             let? has_temperature := Prop_access.call_includes message "temperature" in
             if has_temperature
             then Prop_access.call_includes message "does not support"
             else Return false
           else Return false
       | None => Return false
       end)
    (fun _ => Str.includes errorText "temperature"
              && Str.includes errorText "does not support") = true
  <-> code_and_param error
      \/ match Prop_access.get_opt error "message" with
         | Some (JStr message) => rejects_temperature message
         | Some (JArr items) => JStr "temperature" ∈ items /\ JStr "does not support" ∈ items
         | Some other => Js.truthy (Some other) = true /\ rejects_temperature errorText
         | None => False
         end.
Proof.
  destruct (_ && _) eqn:Hcode.
  - apply code_and_param_spec in Hcode. cbn [Exn.try_catch]. split; [by left | done].
  - assert (Hno : ~ code_and_param error)
      by (rewrite <- code_and_param_spec; congruence).
    destruct (Prop_access.get_opt error "message") as [message |];
      [| cbn [Exn.try_catch]; split; [done | by intros [? | []]]].
    destruct message as [| flag | x | text | items | members];
      cbn [Js.truthy Prop_access.call_includes Exn.bind Exn.try_catch].
    + split; [done | by intros [? | [? _]]].
    + destruct flag; cbn [Exn.try_catch].
      * rewrite rejects_temperature_includes. split; [by right | by intros [? | [_ ?]]].
      * split; [done | by intros [? | [? _]]].
    + destruct (negb _); cbn [Exn.try_catch].
      * rewrite rejects_temperature_includes. split; [by right | by intros [? | [_ ?]]].
      * split; [done | by intros [? | [? _]]].
    + destruct (negb (Str.eqb text "")) eqn:Hempty.
      * cbn [Exn.try_catch]. rewrite <- rejects_temperature_includes.
        destruct (Str.includes text "temperature"); cbn [Exn.try_catch andb];
          (split; [by right | by intros [? | ?]]).
      * cbn [Exn.try_catch]. apply negb_false_iff, bool_decide_eq_true in Hempty as ->.
        split; [done |]. intros [? | [[before [after Hsplit]] _]]; [done |].
        by destruct before.
    + rewrite <- !array_includes.
      destruct (existsb _ items); cbn [Exn.try_catch].
      * split; [intros ?; by right | by intros [? | [_ ?]]].
      * split; [done | by intros [? | [? _]]].
    + rewrite rejects_temperature_includes. split; [by right | by intros [? | [_ ?]]].
Qed.

Lemma shouldRetry_iff (env : Env) (errorText : string) :
  shouldRetry env errorText = true <-> retry_pattern env errorText.
Proof.
  unfold shouldRetry, retry_pattern, json_parse.
  destruct (JSON_parse env errorText) as [data |]; cbn [Exn.bind Exn.try_catch];
    [| apply rejects_temperature_includes].
  destruct data; try apply rejects_temperature_includes;
    unfold temperature_rejected; cbn [Prop_access.get Exn.bind];
    apply (retry_decision errorText).
Qed.

(** C3, amended: when the first response is not a success and matches
    [retry_pattern] (its error has the code [unsupported_value] with the
    param [temperature], or its error message is a text containing both
    [temperature] and [does not support], or the body cannot be inspected
    as such a JSON error and its raw text contains both), exactly one more
    request is issued, without the temperature field, and when that retry
    meets a successful response the call returns what [finish] makes of it;
    a first failure outside the pattern is terminal, with no second request;
    and no call issues more than two requests. *)
Theorem callOpenAI_retry (env : Env) (apiKey systemPrompt questionText : string)
    (questionType : option string) (answerJson : jsval) (model : string) (w : World) :
  let userPrompt := buildTypeSpecificPrompt env questionType questionText answerJson in
  let request temperature :=
    {| rq_bearer := apiKey; rq_model := model; rq_system := systemPrompt;
       rq_user := userPrompt; rq_temperature := temperature |} in
  let first := request (if supportsTemperature model then Some 0 else None) in
  let run := callOpenAI env apiKey systemPrompt questionText questionType answerJson
                        model w in
  (exists sent, http_log (snd run) = http_log w ++ sent /\ length sent <= 2) /\
  forall r1, provider env (http_log w ++ [first]) = Responds r1 -> ok r1 = false ->
    (retry_pattern env (rs_text r1) ->
       http_log (snd run) = http_log w ++ [first; request None] /\
       forall r2, provider env (http_log w ++ [first; request None]) = Responds r2 ->
                  ok r2 = true -> fst run = finish env model r2) /\
    (~ retry_pattern env (rs_text r1) ->
       http_log (snd run) = http_log w ++ [first] /\ exists e, fst run = Throw e).
Proof.
  intros userPrompt request first run. subst run first request. cbv beta.
  unfold callOpenAI, makeRequest, fetch. run.
  fold userPrompt. clearbody userPrompt.
  set (first := {| rq_temperature := if supportsTemperature model then Some 0 else None |}).
  set (second := {| rq_temperature := None |}).
  split.
  - destruct (provider env (http_log w ++ [first])) as [r1 | e1].
    2:{ exists [first]. destruct (is_AbortError e1); run; (split; [done | simpl; lia]). }
    destruct (negb (ok r1)); [| exists [first]; split; [done | simpl; lia]].
    destruct (shouldRetry env (rs_text r1)); run.
    + exists [first; second].
      destruct (provider env _) as [r2 | e2]; [| destruct (is_AbortError e2)];
        run; (split; [by rewrite <- app_assoc | simpl; lia]).
    + exists [first]. destruct (first_error_message env (rs_text r1));
        (split; [done | simpl; lia]).
  - intros r1 -> Hok. rewrite Hok. cbn [negb]. split.
    + intros Hretry%shouldRetry_iff. rewrite Hretry. run.
      rewrite <- (app_assoc (http_log w) [first] [second]). cbn [app].
      split.
      * destruct (provider env _) as [r2 | e2]; [| destruct (is_AbortError e2)];
          run; by rewrite <- app_assoc.
      * by intros r2 -> _.
    + intros Hretry. destruct (shouldRetry env (rs_text r1)) eqn:Hshould;
        [by apply shouldRetry_iff in Hshould |].
      run. destruct (first_error_message env (rs_text r1)); eauto.
Qed.

Lemma callOpenAI_retry_witness :
  let run := callOpenAI (Sample.scripted Sample.unsupported_temperature) "sk-reference"
               (system_prompt Sample.judge) "Which option is prime?"
               (Some "multiple_choice") (Some (JObj [("choice", JStr "B")]))
               (model Sample.judge) Sample.world in
  length (http_log (snd run)) = 2 /\
  fst run = Return {| oa_verdict := "fail"; oa_reasoning := JStr "B is wrong" |}.
Proof.
  destruct (callOpenAI_retry (Sample.scripted Sample.unsupported_temperature) "sk-reference"
              (system_prompt Sample.judge) "Which option is prime?"
              (Some "multiple_choice") (Some (JObj [("choice", JStr "B")]))
              (model Sample.judge) Sample.world) as [_ Hfirst].
  destruct (Hfirst Sample.unsupported_temperature) as [Hretry _];
    [reflexivity | reflexivity |].
  destruct Hretry as [Hlog Hresult]; [left; split; reflexivity |].
  split.
  - cbv zeta. rewrite Hlog. reflexivity.
  - cbv zeta. rewrite (Hresult Sample.completion); reflexivity.
Defined.

(** The claim of C3 fails on a first response whose body is JSON, whose
    error has no code and no param, and whose error message is a number:
    the response is outside the claimed pattern, yet the call issues a second
    request and returns its result instead of failing. *)
Lemma callOpenAI_retry_outside_claim :
  let env := Sample.scripted Sample.odd_failure in
  let run := callOpenAI env "sk-reference"
               (system_prompt Sample.judge) "Which option is prime?"
               (Some "multiple_choice") (Some (JObj [("choice", JStr "B")]))
               (model Sample.judge) Sample.world in
  ok Sample.odd_failure = false /\
  ~ claimed_retry_pattern env (rs_text Sample.odd_failure) /\
  length (http_log (snd run)) = 2 /\
  fst run = Return {| oa_verdict := "fail"; oa_reasoning := JStr "B is wrong" |}.
Proof.
  cbv zeta. split_and!; [reflexivity | | reflexivity | reflexivity].
  unfold claimed_retry_pattern.
  assert (Hparse : JSON_parse (Sample.scripted Sample.odd_failure) (rs_text Sample.odd_failure)
                   = Some (JObj [("error",
                                  JObj [("message", JNum (PrimFloat.of_uint63 400%uint63));
                                        ("type", JStr "temperature does not support")])]))
    by reflexivity.
  rewrite Hparse. intros [[Hcode _] | [message [Hmessage _]]]; discriminate.
Qed.

(** ** The evaluation orchestrator *)

Lemma inconclusive_allowed : "inconclusive" ∈ verdicts.
Proof. unfold verdicts. repeat constructor. Qed.


Lemma evaluateAssignment_returns (env : Env) (assignment : Assignment) (judge : JudgeData)
    (question : QuestionData) (openaiApiKey : string) (w : World) :
  exists result w',
    evaluateAssignment env assignment judge question openaiApiKey w = (Return result, w') /\
    valid_result result.
Proof.
  unfold evaluateAssignment, valid_result. run.
  destruct (callOpenAI _ _ _ _ _ _ _ _) as [[result | e] w1] eqn:Hcall.
  - apply callOpenAI_result in Hcall as [r Hr%finish_verdict].
    destruct (saveEvaluation _ _ _ _ _ _ w1) as [[[] | e] w2]; [by eauto |].
    destruct (saveEvaluation _ _ _ _ _ _ w2) as [[[] | e'] w3];
      do 2 eexists; (split; [reflexivity | apply inconclusive_allowed]).
  - destruct (saveEvaluation _ _ _ _ _ _ w1) as [[[] | e'] w2];
      do 2 eexists; (split; [reflexivity | apply inconclusive_allowed]).
Qed.

(** The model call writes nothing to the database, and a save touches only
    the pair it is given. *)
Lemma callOpenAI_evaluations (env : Env) (apiKey systemPrompt questionText : string)
    (questionType : option string) (answerJson : jsval) (model : string) (w : World) :
  evaluations (snd (callOpenAI env apiKey systemPrompt questionText questionType
                               answerJson model w)) = evaluations w.
Proof.
  unfold callOpenAI, makeRequest, fetch. run.
  destruct (provider env _) as [r1 | e1]; [| by destruct (is_AbortError e1)].
  destruct (negb (ok r1)); [| done].
  destruct (shouldRetry env (rs_text r1)); run.
  - destruct (provider env _) as [r2 | e2]; [done | by destruct (is_AbortError e2)].
  - by destruct (first_error_message env (rs_text r1)).
Qed.

Lemma upsert_pairs (submissionId questionId judgeId verdict : string) (reasoning : json)
    (rows : list EvaluationRow) (e' : EvaluationRow) :
  e' ∈ upsert submissionId questionId judgeId verdict reasoning rows ->
  (exists e, e ∈ rows /\ ev_question_id e = ev_question_id e'
             /\ ev_judge_id e = ev_judge_id e')
  \/ (ev_question_id e' = questionId /\ ev_judge_id e' = judgeId).
Proof.
  unfold upsert. destruct (decide (Exists _ rows)) as [_ | _].
  - intros [e [-> He]]%list_elem_of_fmap.
    destruct (decide (conflicts questionId judgeId e)) as [[Hq Hj] | _]; [by right |].
    left. by exists e.
  - intros [He | ->%list_elem_of_singleton]%elem_of_app; [| by right].
    left. by exists e'.
Qed.

Lemma saveEvaluation_reconciled (env : Env) (submissionId verdict : string)
    (reasoning : json) (a : Assignment) (questionIds : list string)
    (assignments : list Assignment) (w : World) :
  a ∈ assignments -> reconciled w questionIds assignments ->
  reconciled (snd (saveEvaluation env submissionId (question_id a) (judge_id a)
                                  verdict reasoning w))
             questionIds assignments.
Proof.
  intros Ha Hw. unfold saveEvaluation. run.
  destruct (db_error env (db_calls w)); [done |].
  intros e' [[e (He & Hq & Hj)] | [Hq Hj]]%upsert_pairs Hin.
  - rewrite <- Hq, <- Hj. apply Hw; [done | by rewrite Hq].
  - by exists a.
Qed.

Lemma evaluateAssignment_reconciled (env : Env) (a : Assignment) (judge : JudgeData)
    (question : QuestionData) (openaiApiKey : string) (questionIds : list string)
    (assignments : list Assignment) (w : World) :
  a ∈ assignments -> reconciled w questionIds assignments ->
  reconciled (snd (evaluateAssignment env a judge question openaiApiKey w))
             questionIds assignments.
Proof.
  intros Ha Hw. unfold evaluateAssignment. run.
  pose proof (callOpenAI_evaluations env openaiApiKey (system_prompt judge)
                (question_text question) (question_type question) (answer_json question)
                (model judge) w) as Hcall.
  destruct (callOpenAI _ _ _ _ _ _ _ _) as [[result | e] w1]; cbn [snd] in Hcall.
  - assert (Hw1 : reconciled w1 questionIds assignments)
      by (unfold reconciled; by rewrite Hcall).
    pose proof (saveEvaluation_reconciled env (submission_id question) (oa_verdict result)
                  (or_else (Some (oa_reasoning result)) JNull) a questionIds assignments
                  w1 Ha Hw1) as Hsave.
    destruct (saveEvaluation _ _ _ _ _ _ w1) as [[[] | e] w2]; [done |].
    cbn [snd] in Hsave.
    pose proof (saveEvaluation_reconciled env (submission_id question) "inconclusive"
                  (JStr ("Error: " +:+ message_or_unknown e)) a questionIds assignments
                  w2 Ha Hsave) as Hfallback.
    by destruct (saveEvaluation _ _ _ _ _ _ w2) as [[[] | e'] w3].
  - assert (Hw1 : reconciled w1 questionIds assignments)
      by (unfold reconciled; by rewrite Hcall).
    pose proof (saveEvaluation_reconciled env (submission_id question) "inconclusive"
                  (JStr ("Error: " +:+ message_or_unknown e)) a questionIds assignments
                  w1 Ha Hw1) as Hfallback.
    by destruct (saveEvaluation _ _ _ _ _ _ w1) as [[[] | e'] w2].
Qed.

(** ** Reconciliation *)

Lemma key_unique {A} (key : A -> string) (l : list A) (x y : A) :
  NoDup (key <$> l) -> x ∈ l -> y ∈ l -> key x = key y -> x = y.
Proof.
  induction l as [| z l IH]; [by rewrite elem_of_nil |].
  rewrite fmap_cons, NoDup_cons, !elem_of_cons.
  intros [Hz Hnd] [-> | Hx] [-> | Hy] Hkey; try done.
  - destruct Hz. rewrite Hkey. by apply list_elem_of_fmap_2.
  - destruct Hz. rewrite <- Hkey. by apply list_elem_of_fmap_2.
  - by apply IH.
Qed.

Lemma elem_of_validPairs (assignments : list Assignment) (pairs : gset string) (k : string) :
  k ∈ foldl (fun pairs a => pairs ∪ {[ pairKey (question_id a) (judge_id a) ]}) pairs assignments
  <-> k ∈ pairs \/ exists a, a ∈ assignments /\ k = pairKey (question_id a) (judge_id a).
Proof.
  revert pairs. induction assignments as [| a l IH]; intros pairs; simpl.
  - split; [by left | intros [? | [a [Ha _]]]; [done | by apply elem_of_nil in Ha]].
  - rewrite IH, elem_of_union, elem_of_singleton. split.
    + intros [[Hk | ->] | [b [Hb ->]]]; [by left | right; exists a | right; exists b];
        (split; [| done]); [apply list_elem_of_here | by apply list_elem_of_further].
    + intros [Hk | [b [Hb ->]]]; [by left; left |].
      apply elem_of_cons in Hb as [-> | Hb]; [left; by right | right; by exists b].
Qed.

(** C10: [deleteOldEvaluations] removes no evaluation row whose question is
    outside the given question ids, and none whose (question, judge) pair is
    among the current assignments; the rows it keeps are the rows that were
    there, unaltered and in their order, and no other table changes.  The
    [id] column is the primary key of [evaluations]. *)
Theorem deleteOldEvaluations_frame (env : Env) (questionIds : list string)
    (currentAssignments : list Assignment) (w : World) :
  let w' := snd (deleteOldEvaluations env questionIds currentAssignments w) in
  NoDup (ev_id <$> evaluations w) ->
  evaluations w' `sublist_of` evaluations w /\
  (forall e, e ∈ evaluations w -> ev_question_id e ∉ questionIds -> e ∈ evaluations w') /\
  (forall e a, e ∈ evaluations w -> a ∈ currentAssignments ->
     question_id a = ev_question_id e -> judge_id a = ev_judge_id e ->
     e ∈ evaluations w') /\
  submissions w' = submissions w /\ questions w' = questions w /\
  answers w' = answers w /\ judge_assignments w' = judge_assignments w /\
  judges w' = judges w.
Proof.
  intros w' Hkey. subst w'. unfold deleteOldEvaluations.
  destruct (decide (length questionIds = 0)); [done |].
  run. destruct (db_error env (db_calls w)); [done |].
  destruct (decide (length _ = 0)); [done |].
  destruct (decide (length _ = 0)); [done |].
  run. destruct (db_error env (S (db_calls w))); [done |].
  run.
  split_and!; try done.
  - apply sublist_filter.
  - intros e He Hq. apply list_elem_of_filter. split; [| done].
    intros [e' [Hid He']]%list_elem_of_fmap.
    apply list_elem_of_filter in He' as [_ [Hq' He']%list_elem_of_filter].
    by rewrite (key_unique ev_id _ e e' Hkey He He' Hid) in Hq.
  - intros e a He Ha Hqa Hja. apply list_elem_of_filter. split; [| done].
    intros [e' [Hid He']]%list_elem_of_fmap.
    apply list_elem_of_filter in He' as [Hpair [_ He']%list_elem_of_filter].
    rewrite <- (key_unique ev_id _ e e' Hkey He He' Hid) in Hpair.
    apply Hpair, elem_of_validPairs. right. exists a. by rewrite Hqa, Hja.
Qed.

Lemma deleteOldEvaluations_frame_witness :
  {| ev_id := "E2"; ev_submission_id := "S1"; ev_question_id := "Q1";
     ev_judge_id := "J1"; ev_verdict := "fail"; ev_reasoning := JNull |}
  ∈ evaluations (snd (deleteOldEvaluations Sample.offline ["Q1"; "Q2"]
                        (judge_assignments Sample.world) Sample.world)) /\
  {| ev_id := "E3"; ev_submission_id := "S9"; ev_question_id := "Q9";
     ev_judge_id := "J1"; ev_verdict := "pass"; ev_reasoning := JNull |}
  ∈ evaluations (snd (deleteOldEvaluations Sample.offline ["Q1"; "Q2"]
                        (judge_assignments Sample.world) Sample.world)).
Proof.
  destruct (deleteOldEvaluations_frame Sample.offline ["Q1"; "Q2"]
              (judge_assignments Sample.world) Sample.world)
    as (_ & Hother & Hassigned & _).
  - apply (bool_decide_unpack _). vm_compute. exact I.
  - split.
    + apply (Hassigned _ {| judge_id := "J1"; question_id := "Q1" |});
        [vm_compute; repeat constructor | vm_compute; repeat constructor
        | reflexivity | reflexivity].
    + apply Hother;
        [vm_compute; repeat constructor
        | apply (bool_decide_unpack _); vm_compute; exact I].
Defined.

(** With UUID identifiers the key of a pair determines the pair, so that a
    reconciliation that returns leaves no evaluation of an unassigned pair
    among the given questions. *)
Lemma pairKey_nil (j : string) : pairKey "" j = String ":"%char j.
Proof. reflexivity. Qed.

Lemma pairKey_cons (c : Ascii.ascii) (q j : string) :
  pairKey (String c q) j = String c (pairKey q j).
Proof. reflexivity. Qed.

Lemma pairKey_inj (q q' j j' : string) :
  colon_free q = true -> colon_free q' = true ->
  pairKey q j = pairKey q' j' -> q = q' /\ j = j'.
Proof.
  revert q'.
  induction q as [| c q IH]; intros [| c' q']; cbn [colon_free];
    rewrite ?pairKey_nil, ?pairKey_cons.
  - by intros _ _ [= ->].
  - by intros _ [Hc _]%andb_true_iff [= <- _].
  - by intros [Hc _]%andb_true_iff _ [= -> _].
  - intros [_ Hq]%andb_true_iff [_ Hq']%andb_true_iff [= -> Hrest].
    by destruct (IH q' Hq Hq' Hrest) as [-> ->].
Qed.

Lemma deleteOldEvaluations_prunes (env : Env) (questionIds : list string)
    (currentAssignments : list Assignment) (w w' : World) :
  deleteOldEvaluations env questionIds currentAssignments w = (Return tt, w') ->
  (forall e, e ∈ evaluations w -> colon_free (ev_question_id e) = true) ->
  (forall a, a ∈ currentAssignments -> colon_free (question_id a) = true) ->
  reconciled w' questionIds currentAssignments.
Proof.
  intros Hrun Hrows Hassignments.
  assert (Hvalid : forall e, e ∈ evaluations w ->
            pairKey (ev_question_id e) (ev_judge_id e)
            ∈ foldl (fun pairs a => pairs ∪ {[ pairKey (question_id a) (judge_id a) ]})
                    (∅ : gset string) currentAssignments ->
            exists a, a ∈ currentAssignments /\ question_id a = ev_question_id e
                      /\ judge_id a = ev_judge_id e).
  { intros e He [Hempty | [a [Ha Hkey]]]%elem_of_validPairs;
      [by apply not_elem_of_empty in Hempty |].
    exists a. split; [done |].
    by destruct (pairKey_inj _ _ _ _ (Hrows e He) (Hassignments a Ha) Hkey). }
  revert Hrun. unfold deleteOldEvaluations, reconciled.
  destruct (decide (length questionIds = 0)) as [Hnil%nil_length_inv |].
  { intros _ e _ Hq. rewrite Hnil in Hq. by apply elem_of_nil in Hq. }
  run. destruct (db_error env (db_calls w)); [done |].
  destruct (decide (length _ = 0)) as [Hnone%nil_length_inv |].
  { intros [= <-] e He Hq. cbn [evaluations tick] in He.
    by destruct (filter_nil_not_elem_of _ _ e Hnone Hq). }
  destruct (decide (length _ = 0)) as [Hnone%nil_length_inv |].
  { intros [= <-] e He Hq. cbn [evaluations tick] in He.
    apply Hvalid; [done |].
    destruct (decide (pairKey (ev_question_id e) (ev_judge_id e)
                      ∈ foldl (fun pairs a => pairs ∪ {[ pairKey (question_id a) (judge_id a) ]})
                              (∅ : gset string) currentAssignments)) as [| Hout]; [done |].
    destruct (filter_nil_not_elem_of _ _ e Hnone Hout). by apply list_elem_of_filter. }
  run. destruct (db_error env (S (db_calls w))); [done |].
  intros [= <-] e He Hq. cbn [evaluations set_evaluations] in He.
  apply list_elem_of_filter in He as [Hid He].
  apply Hvalid; [done |].
  destruct (decide (pairKey (ev_question_id e) (ev_judge_id e)
                    ∈ foldl (fun pairs a => pairs ∪ {[ pairKey (question_id a) (judge_id a) ]})
                            (∅ : gset string) currentAssignments)) as [| Hout]; [done |].
  destruct Hid. apply list_elem_of_fmap_2. by rewrite !list_elem_of_filter.
Qed.

Lemma deleteOldEvaluations_returns (env : Env) (questionIds : list string)
    (currentAssignments : list Assignment) (w : World) :
  (forall n, db_error env n = None) ->
  exists w', deleteOldEvaluations env questionIds currentAssignments w = (Return tt, w').
Proof.
  intros Hdb. unfold deleteOldEvaluations.
  destruct (decide (length questionIds = 0)); [by eauto |].
  run. rewrite Hdb.
  destruct (decide (length _ = 0)); [by eauto |].
  destruct (decide (length _ = 0)); [by eauto |].
  run. rewrite Hdb. by eauto.
Qed.

(** ** The batch runner *)

Lemma process_returns (env : Env) (judgeMap : gmap string JudgeData)
    (questionMap : gmap string QuestionData) (openaiApiKey : string)
    (assignments : list Assignment) (results : list EvaluationResult) (w : World) :
  Forall valid_result results ->
  exists results' w',
    process env judgeMap questionMap openaiApiKey assignments results w
    = (Return results', w') /\
    Forall valid_result results'.
Proof.
  revert results w. induction assignments as [| a rest IH]; intros results w Hvalid.
  - by exists results, w.
  - cbn [process].
    destruct (judgeMap !! judge_id a) as [judge |]; [| by apply IH].
    destruct (questionMap !! question_id a) as [question |]; [| by apply IH].
    destruct (evaluateAssignment_returns env a judge question openaiApiKey w)
      as (result & w1 & Hrun & Hresult).
    run. rewrite Hrun. apply IH.
    apply Forall_app. split; [done |]. by apply Forall_singleton.
Qed.

Lemma count_by_verdict (results : list EvaluationResult) :
  Forall valid_result results ->
  length results
  = length (filter (fun r => verdict r = "pass") results)
    + length (filter (fun r => verdict r = "fail") results)
    + length (filter (fun r => verdict r = "inconclusive") results).
Proof.
  induction 1 as [| r results Hr _ IH]; [done |].
  unfold valid_result, verdicts in Hr.
  rewrite !elem_of_cons, elem_of_nil in Hr.
  rewrite !filter_cons.
  destruct Hr as [Hr | [Hr | [Hr | []]]]; rewrite Hr; repeat case_decide; try done;
    cbn [length]; lia.
Qed.

Lemma process_reconciled (env : Env) (judgeMap : gmap string JudgeData)
    (questionMap : gmap string QuestionData) (openaiApiKey : string)
    (questionIds : list string) (assignments rest : list Assignment)
    (results : list EvaluationResult) (w : World) :
  rest ⊆ assignments -> reconciled w questionIds assignments ->
  reconciled (snd (process env judgeMap questionMap openaiApiKey rest results w))
             questionIds assignments.
Proof.
  revert results w. induction rest as [| a rest IH]; intros results w Hrest Hw; [done |].
  assert (Ha : a ∈ assignments) by (apply Hrest; left).
  assert (Hrest' : rest ⊆ assignments) by (intros x Hx; apply Hrest; by right).
  cbn [process].
  destruct (judgeMap !! judge_id a) as [judge |]; [| by apply IH].
  destruct (questionMap !! question_id a) as [question |]; [| by apply IH].
  pose proof (evaluateAssignment_reconciled env a judge question openaiApiKey questionIds
                assignments w Ha Hw) as Hstep.
  run. destruct (evaluateAssignment _ _ _ _ _ _) as [[result | e] w1]; [| done].
  by apply IH.
Qed.

Lemma run_assignments_served env key user qs qids answerMap assignments w :
  match run_assignments env key user qs qids answerMap assignments w with
  | (Return response, _) => served response
  | (Throw _, _) => True
  end.
Proof.
  unfold run_assignments. run.
  destruct (getJudgesForUser _ _ _ _) as [[judges | e] w1].
  - destruct (deleteOldEvaluations _ _ _ _) as [[[] | e] w2]; [| done].
    destruct (process_returns env (buildJudgeMap judges) (buildQuestionMap qs answerMap)
                key assignments [] w2) as (results & w3 & -> & Hvalid); [done |].
    by constructor.
  - destruct (is_Error_about e _); run; [| done]. by constructor.
Qed.

Lemma serve_served (env : Env) (req : Request) (w : World) :
  exists response w', serve env req w = (Return response, w') /\ served response.
Proof.
  unfold serve. destruct (Str.eqb (method req) "OPTIONS"); [do 2 eexists; split; [done | constructor] |].
  assert (Herr : forall (e : thrown) (w' : World),
     exists response w'', (Return (errorResponse (message_or_unknown e) 500), w')
        = (Return response, w'') /\ served response)
    by (intros; do 2 eexists; split; [done | by constructor]).
  assert (H400 : forall (w' : World),
     exists response w'', (Return (errorResponse "Missing workspaceId or userId" 400), w')
        = (Return response, w'') /\ served response)
    by (intros; do 2 eexists; split; [done | by constructor]).
  run.
  destruct (OPENAI_SECRET_KEY env) as [key |]; [| by apply Herr].
  destruct (Str.eqb key ""); run; [by apply Herr |].
  destruct (json_body req) as [request | e]; [| by apply Herr].
  destruct (workspaceId request) as [workspace |]; [| by apply H400].
  destruct (userId request) as [user |]; [| by apply H400].
  destruct (_ || _); run; [by apply H400 |].
  destruct (getSubmissionsForWorkspace _ _ _) as [[submissionIds | e] w1]; [| by apply Herr].
  destruct (getQuestionsForSubmissions _ _ _) as [[qs | e] w2]; [| by apply Herr].
  destruct (getAnswersForQuestions _ _ _) as [[answerMap | e] w3]; [| by apply Herr].
  destruct (getJudgeAssignments _ _ _) as [[assignments | e] w4].
  - pose proof (run_assignments_served env key user qs (q_id <$> qs) answerMap assignments w4) as H.
    destruct (run_assignments _ _ _ _ _ _ _ _) as [[response | e] w5]; [by eauto |].
    by apply Herr.
  - destruct (is_Error_about e _); run; [| by apply Herr].
    do 2 eexists; split; [done | by constructor].
Qed.

(** C9: in a success response, [processed] is the length of the results
    list and the sum of the three verdict counts, every result carrying one
    of the three verdicts. *)
Theorem success_response_counts (env : Env) (req : Request) (w : World)
    (response : HttpResponse) (processed passed failed inconclusive : nat)
    (results : list EvaluationResult) :
  fst (serve env req w) = Return response ->
  body response = SuccessBody processed passed failed inconclusive results ->
  processed = length results /\
  processed = passed + failed + inconclusive /\
  Forall valid_result results.
Proof.
  intros Hrun Hbody.
  destruct (serve_served env req w) as (response' & w' & Hserve & Hserved).
  rewrite Hserve in Hrun. injection Hrun as ->.
  destruct Hserved as [| results' Hvalid | message status' _]; try discriminate.
  injection Hbody as <- <- <- <- <-.
  split_and!; [done | by apply count_by_verdict | done].
Qed.

Lemma success_response_counts_witness :
  2 = length (Sample.two_failures) /\
  2 = 0 + 2 + 0 /\
  Forall valid_result Sample.two_failures.
Proof.
  apply (success_response_counts Sample.online (Sample.post "W1" "U1") Sample.world
           {| status := 200; body := SuccessBody 2 0 2 0 Sample.two_failures |});
    reflexivity.
Defined.

Section No_faults.

Context (env : Env) (Hdb : forall n, db_error env n = None).

Lemma getSubmissionsForWorkspace_run (workspace : string) (w : World) :
  getSubmissionsForWorkspace env workspace w
  = (if decide (length (workspace_submissions w workspace) = 0)
     then Throw (new_Error "No submissions found in workspace")
     else Return (sub_id <$> workspace_submissions w workspace),
     tick w).
Proof.
  unfold getSubmissionsForWorkspace, workspace_submissions. run. rewrite Hdb.
  by destruct (decide _).
Qed.

Lemma getQuestionsForSubmissions_run (submissionIds : list string) (w : World) :
  let data := filter (fun q => qrow_submission_id q ∈ submissionIds) (questions w) in
  getQuestionsForSubmissions env submissionIds w
  = (if decide (length data = 0)
     then Throw (new_Error "No questions found")
     else Return ((fun q => {| q_id := qrow_id q;
                               question_text := qrow_question_text q;
                               question_type := qrow_question_type q;
                               answer_json := Some JNull;
                               submission_id := qrow_submission_id q |}) <$> data),
     tick w).
Proof.
  unfold getQuestionsForSubmissions. run. rewrite Hdb.
  by destruct (decide _).
Qed.

Lemma getAnswersForQuestions_run (questionIds : list string) (w : World) :
  exists answerMap, getAnswersForQuestions env questionIds w = (Return answerMap, tick w).
Proof. unfold getAnswersForQuestions. run. rewrite Hdb. eauto. Qed.

Lemma getJudgeAssignments_run (questionIds : list string) (w : World) :
  questionIds <> [] ->
  let data := filter (fun a => question_id a ∈ questionIds) (judge_assignments w) in
  getJudgeAssignments env questionIds w
  = (if decide (length data = 0)
     then Throw (new_Error "No judge assignments found")
     else Return data,
     tick w).
Proof.
  intros Hids. unfold getJudgeAssignments.
  destruct (decide (length questionIds = 0)) as [Hnil%nil_length_inv |]; [done |].
  run. rewrite Hdb. by destruct (decide _).
Qed.

Lemma getJudgesForUser_run (judgeIds : list string) (userId : string) (w : World) :
  judgeIds <> [] ->
  let data := filter (fun j => jrow_id j ∈ judgeIds ∧ jrow_user_id j = userId) (judges w) in
  getJudgesForUser env judgeIds userId w
  = (if decide (length data = 0)
     then Throw (new_Error "No judges found")
     else Return ((fun j => {| id := jrow_id j; name := jrow_name j;
                               system_prompt := jrow_system_prompt j;
                               model := jrow_model j |}) <$> data),
     tick w).
Proof.
  intros Hids. unfold getJudgesForUser.
  destruct (decide (length judgeIds = 0)) as [Hnil%nil_length_inv |]; [done |].
  run. rewrite Hdb. by destruct (decide _).
Qed.

End No_faults.

Lemma question_ids (rows : list QuestionRow) :
  q_id <$> ((fun q => {| q_id := qrow_id q;
                         question_text := qrow_question_text q;
                         question_type := qrow_question_type q;
                         answer_json := Some JNull;
                         submission_id := qrow_submission_id q |}) <$> rows)
  = qrow_id <$> rows.
Proof. rewrite <- list_fmap_compose. by apply list_fmap_ext. Qed.

Lemma filter_equiv {A} (P Q : A -> Prop) `{!forall x, Decision (P x)}
    `{!forall x, Decision (Q x)} (l : list A) :
  (forall x, P x <-> Q x) -> filter P l = filter Q l.
Proof.
  intros HPQ. induction l as [| x l IH]; [done |].
  rewrite !filter_cons, IH.
  destruct (decide (P x)) as [HP | HP], (decide (Q x)) as [HQ | HQ]; try done;
    by apply HPQ in HP || (by apply HPQ in HQ).
Qed.

(** What [serve] does when the workspace has questions but the assignments,
    or the assigned judges of the user, resolve to nothing: it answers with
    an empty success, and neither writes to [evaluations] nor calls the
    provider. *)
Lemma serve_nothing_to_evaluate (env : Env) (req : Request) (w : World)
    (workspace user key : string) :
  method req <> "OPTIONS" ->
  json_body req = Return {| workspaceId := Some workspace; userId := Some user |} ->
  workspace <> "" -> user <> "" ->
  OPENAI_SECRET_KEY env = Some key -> key <> "" ->
  (forall n, db_error env n = None) ->
  workspace_questions w workspace <> [] ->
  workspace_assignments w workspace = [] \/ owned_judges w workspace user = [] ->
  fst (serve env req w) = Return (successResponse []) /\
  evaluations (snd (serve env req w)) = evaluations w /\
  http_log (snd (serve env req w)) = http_log w.
Proof.
  intros Hmethod Hbody Hworkspace Huser Hkey Hkey' Hdb Hquestions Hnothing.
  unfold serve, Str.eqb.
  rewrite (bool_decide_eq_false_2 _ Hmethod), Hkey, (bool_decide_eq_false_2 _ Hkey'), Hbody.
  run. cbn [workspaceId userId missing]. unfold Str.eqb.
  rewrite (bool_decide_eq_false_2 _ Hworkspace), (bool_decide_eq_false_2 _ Huser). cbn [orb].
  rewrite (getSubmissionsForWorkspace_run env Hdb).
  assert (Hsubs : workspace_submissions w workspace <> []).
  { intros Hnil. apply Hquestions. unfold workspace_questions. rewrite Hnil.
    induction (questions w) as [| q l IH]; [done |].
    rewrite filter_cons. by destruct (decide _) as [?%elem_of_nil |]. }
  destruct (decide (length (workspace_submissions w workspace) = 0))
    as [?%nil_length_inv |]; [done |].
  rewrite (getQuestionsForSubmissions_run env Hdb). cbv zeta.
  change (filter _ (questions (tick w))) with (workspace_questions w workspace).
  destruct (decide (length (workspace_questions w workspace) = 0))
    as [?%nil_length_inv |]; [done |].
  rewrite question_ids.
  destruct (getAnswersForQuestions_run env Hdb (qrow_id <$> workspace_questions w workspace)
              (tick (tick w))) as [answerMap ->].
  rewrite (getJudgeAssignments_run env Hdb).
  2:{ intros Hnil%fmap_nil_inv. done. }
  cbv zeta.
  change (filter _ (judge_assignments (tick (tick (tick w)))))
    with (workspace_assignments w workspace).
  destruct (decide (length (workspace_assignments w workspace) = 0))
    as [Hnone | Hsome].
  - done.
  - destruct Hnothing as [Hnil | Hnil]; [by rewrite Hnil in Hsome |].
    unfold run_assignments. run.
    rewrite (getJudgesForUser_run env Hdb).
    2:{ intros Hempty. apply Hsome.
        apply elements_empty_inv in Hempty. 
        destruct (workspace_assignments w workspace) as [| a l]; [done |].
        exfalso. apply (not_elem_of_empty (C:=gset string) (judge_id a)).
        rewrite <- Hempty. set_solver. }
    cbv zeta.
    rewrite (filter_equiv _ (fun j => jrow_id j ∈ (judge_id <$> workspace_assignments w workspace)
                                      ∧ jrow_user_id j = user)).
    2:{ intros j. by rewrite elem_of_elements, elem_of_list_to_set. }
    change (filter _ (judges (tick (tick (tick (tick w))))))
      with (owned_judges w workspace user).
    rewrite Hnil. done.
Qed.

Lemma serve_nothing_to_resolve (env : Env) (req : Request) (w : World)
    (workspace user key : string) :
  method req <> "OPTIONS" ->
  json_body req = Return {| workspaceId := Some workspace; userId := Some user |} ->
  workspace <> "" -> user <> "" ->
  OPENAI_SECRET_KEY env = Some key -> key <> "" ->
  (forall n, db_error env n = None) ->
  (workspace_submissions w workspace = [] ->
     fst (serve env req w)
     = Return (errorResponse "No submissions found in workspace" 500)) /\
  (workspace_submissions w workspace <> [] -> workspace_questions w workspace = [] ->
     fst (serve env req w) = Return (errorResponse "No questions found" 500)).
Proof.
  intros Hmethod Hbody Hworkspace Huser Hkey Hkey' Hdb.
  unfold serve, Str.eqb.
  rewrite (bool_decide_eq_false_2 _ Hmethod), Hkey, (bool_decide_eq_false_2 _ Hkey'), Hbody.
  run. cbn [workspaceId userId missing]. unfold Str.eqb.
  rewrite (bool_decide_eq_false_2 _ Hworkspace), (bool_decide_eq_false_2 _ Huser). cbn [orb].
  rewrite (getSubmissionsForWorkspace_run env Hdb).
  split.
  - by intros ->.
  - intros Hsubs Hnil.
    destruct (decide (length (workspace_submissions w workspace) = 0))
      as [?%nil_length_inv |]; [done |].
    rewrite (getQuestionsForSubmissions_run env Hdb). cbv zeta.
    change (filter _ (questions (tick w))) with (workspace_questions w workspace).
    by rewrite Hnil.
Qed.

Lemma assignments_need_questions (w : World) (workspace : string) :
  workspace_assignments w workspace <> [] -> workspace_questions w workspace <> [].
Proof.
  intros Hsome Hnil. apply Hsome. unfold workspace_assignments. rewrite Hnil.
  induction (judge_assignments w) as [| a l IH]; [done |].
  rewrite filter_cons. by destruct (decide _) as [?%elem_of_nil |].
Qed.

(** C7: on a well-formed request, with the key configured and the database
    answering, the run fails with an error response when the workspace has
    no submissions, or its submissions have no questions; and it succeeds
    with [processed = 0] and no results when the questions have no
    assignments, or no assigned judge belongs to the requesting user. *)
Theorem serve_empty_resolution (env : Env) (req : Request) (w : World)
    (workspace user key : string) :
  method req <> "OPTIONS" ->
  json_body req = Return {| workspaceId := Some workspace; userId := Some user |} ->
  workspace <> "" -> user <> "" ->
  OPENAI_SECRET_KEY env = Some key -> key <> "" ->
  (forall n, db_error env n = None) ->
  let response := fst (serve env req w) in
  let nothing_done := {| status := 200; body := SuccessBody 0 0 0 0 [] |} in
  (workspace_submissions w workspace = [] ->
     response = Return {| status := 500;
                          body := ErrorBody "No submissions found in workspace" |}) /\
  (workspace_submissions w workspace <> [] -> workspace_questions w workspace = [] ->
     response = Return {| status := 500; body := ErrorBody "No questions found" |}) /\
  (workspace_questions w workspace <> [] -> workspace_assignments w workspace = [] ->
     response = Return nothing_done) /\
  (workspace_assignments w workspace <> [] -> owned_judges w workspace user = [] ->
     response = Return nothing_done).
Proof.
  intros Hmethod Hbody Hworkspace Huser Hkey Hkey' Hdb response nothing_done.
  destruct (serve_nothing_to_resolve env req w workspace user key) as [Hsubs Hquestions];
    try done.
  split_and!; [done | done | |].
  - intros Hsome Hnil.
    by destruct (serve_nothing_to_evaluate env req w workspace user key) as [? _];
      [.. | left |].
  - intros Hsome%assignments_need_questions Hnil.
    by destruct (serve_nothing_to_evaluate env req w workspace user key) as [? _];
      [.. | right |].
Qed.

Lemma serve_empty_resolution_witness :
  fst (serve Sample.offline (Sample.post "W0" "U1") Sample.world)
  = Return {| status := 500; body := ErrorBody "No submissions found in workspace" |} /\
  fst (serve Sample.offline (Sample.post "W5" "U1") Sample.world)
  = Return {| status := 500; body := ErrorBody "No questions found" |} /\
  fst (serve Sample.offline (Sample.post "W1" "U1") Sample.unassigned)
  = Return {| status := 200; body := SuccessBody 0 0 0 0 [] |} /\
  fst (serve Sample.offline (Sample.post "W1" "U1") Sample.foreign_judge)
  = Return {| status := 200; body := SuccessBody 0 0 0 0 [] |}.
Proof.
  split_and!.
  - destruct (serve_empty_resolution Sample.offline (Sample.post "W0" "U1") Sample.world
                "W0" "U1" "sk-reference") as (Hnone & _);
      [discriminate | reflexivity | discriminate | discriminate | reflexivity
      | discriminate | reflexivity |].
    apply Hnone. reflexivity.
  - destruct (serve_empty_resolution Sample.offline (Sample.post "W5" "U1") Sample.world
                "W5" "U1" "sk-reference") as (_ & Hnone & _);
      [discriminate | reflexivity | discriminate | discriminate | reflexivity
      | discriminate | reflexivity |].
    apply Hnone; [vm_compute; discriminate | reflexivity].
  - destruct (serve_empty_resolution Sample.offline (Sample.post "W1" "U1") Sample.unassigned
                "W1" "U1" "sk-reference") as (_ & _ & Hnone & _);
      [discriminate | reflexivity | discriminate | discriminate | reflexivity
      | discriminate | reflexivity |].
    apply Hnone; [vm_compute; discriminate | reflexivity].
  - destruct (serve_empty_resolution Sample.offline (Sample.post "W1" "U1")
                Sample.foreign_judge "W1" "U1" "sk-reference") as (_ & _ & _ & Hnone);
      [discriminate | reflexivity | discriminate | discriminate | reflexivity
      | discriminate | reflexivity |].
    apply Hnone; [vm_compute; discriminate | reflexivity].
Defined.

(** On the path that reaches the reconciliation (some assignment, some
    assigned judge of the user), the run completes with a success response
    and leaves, for the questions of the workspace, only evaluations of
    assigned pairs. *)
Lemma serve_reconciles (env : Env) (req : Request) (w : World)
    (workspace user key : string) :
  method req <> "OPTIONS" ->
  json_body req = Return {| workspaceId := Some workspace; userId := Some user |} ->
  workspace <> "" -> user <> "" ->
  OPENAI_SECRET_KEY env = Some key -> key <> "" ->
  (forall n, db_error env n = None) ->
  uuid_keys w ->
  workspace_assignments w workspace <> [] ->
  owned_judges w workspace user <> [] ->
  (exists results, fst (serve env req w) = Return (successResponse results)) /\
  reconciled (snd (serve env req w)) (qrow_id <$> workspace_questions w workspace)
             (workspace_assignments w workspace).
Proof.
  intros Hmethod Hbody Hworkspace Huser Hkey Hkey' Hdb [Hrows Hassigned] Hsome Hjudges.
  pose proof (assignments_need_questions w workspace Hsome) as Hquestions.
  unfold serve, Str.eqb.
  rewrite (bool_decide_eq_false_2 _ Hmethod), Hkey, (bool_decide_eq_false_2 _ Hkey'), Hbody.
  run. cbn [workspaceId userId missing]. unfold Str.eqb.
  rewrite (bool_decide_eq_false_2 _ Hworkspace), (bool_decide_eq_false_2 _ Huser). cbn [orb].
  rewrite (getSubmissionsForWorkspace_run env Hdb).
  assert (Hsubs : workspace_submissions w workspace <> []).
  { intros Hnil. apply Hquestions. unfold workspace_questions. rewrite Hnil.
    induction (questions w) as [| q l IH]; [done |].
    rewrite filter_cons. by destruct (decide _) as [?%elem_of_nil |]. }
  destruct (decide (length (workspace_submissions w workspace) = 0))
    as [?%nil_length_inv |]; [done |].
  rewrite (getQuestionsForSubmissions_run env Hdb). cbv zeta.
  change (filter _ (questions (tick w))) with (workspace_questions w workspace).
  destruct (decide (length (workspace_questions w workspace) = 0))
    as [?%nil_length_inv |]; [done |].
  rewrite question_ids.
  destruct (getAnswersForQuestions_run env Hdb (qrow_id <$> workspace_questions w workspace)
              (tick (tick w))) as [answerMap ->].
  rewrite (getJudgeAssignments_run env Hdb); [| by intros Hnil%fmap_nil_inv].
  cbv zeta.
  change (filter _ (judge_assignments (tick (tick (tick w)))))
    with (workspace_assignments w workspace).
  destruct (decide (length (workspace_assignments w workspace) = 0))
    as [?%nil_length_inv |]; [done |].
  unfold run_assignments. run.
  rewrite (getJudgesForUser_run env Hdb).
  2:{ intros Hempty%elements_empty_inv.
      destruct (workspace_assignments w workspace) as [| a l]; [done |].
      apply (not_elem_of_empty (C:=gset string) (judge_id a)).
      rewrite <- Hempty. apply elem_of_list_to_set. left. }
  cbv zeta.
  rewrite (filter_equiv _ (fun j => jrow_id j ∈ (judge_id <$> workspace_assignments w workspace)
                                    ∧ jrow_user_id j = user));
    [| intros j; by rewrite elem_of_elements, elem_of_list_to_set].
  change (filter _ (judges (tick (tick (tick (tick w))))))
    with (owned_judges w workspace user).
  destruct (decide (length (owned_judges w workspace user) = 0))
    as [?%nil_length_inv |]; [done |].
  destruct (deleteOldEvaluations_returns env (qrow_id <$> workspace_questions w workspace)
              (workspace_assignments w workspace) (tick (tick (tick (tick (tick w))))) Hdb)
    as [w1 Hdelete].
  rewrite Hdelete.
  apply deleteOldEvaluations_prunes in Hdelete.
  2:{ exact Hrows. }
  2:{ intros a [_ Ha]%list_elem_of_filter. by apply Hassigned. }
  match goal with
  | |- context [process env ?jm ?qm key ?l [] w1] =>
      pose proof (process_reconciled env jm qm key _ _ l [] w1 (reflexivity _) Hdelete)
        as Hloop;
      destruct (process_returns env jm qm key l [] w1 (Forall_nil_2 _))
        as (results & w2 & Hrun & _)
  end.
  rewrite Hrun in Hloop |- *. by eauto.
Qed.

(** C1 fails on the code: a run that finds no assignment, or no assigned
    judge of the user, completes with an empty success and leaves every
    evaluation row in place, among them rows of the workspace's question Q1
    for pairs that are not assigned. *)
Theorem stale_evaluations_survive :
  let stale_1 := {| ev_id := "E1"; ev_submission_id := "S1"; ev_question_id := "Q1";
                    ev_judge_id := "J2"; ev_verdict := "pass";
                    ev_reasoning := JStr "Accepted." |} in
  let stale_2 := {| ev_id := "E2"; ev_submission_id := "S1"; ev_question_id := "Q1";
                    ev_judge_id := "J1"; ev_verdict := "fail"; ev_reasoning := JNull |} in
  let run_unassigned := serve Sample.offline (Sample.post "W1" "U1") Sample.unassigned in
  let run_foreign := serve Sample.offline (Sample.post "W1" "U1") Sample.foreign_judge in
  (workspace_assignments Sample.unassigned "W1" = [] /\
   fst run_unassigned = Return {| status := 200; body := SuccessBody 0 0 0 0 [] |} /\
   evaluations (snd run_unassigned) !! 0 = Some stale_1 /\
   evaluations (snd run_unassigned) !! 1 = Some stale_2) /\
  (workspace_assignments Sample.foreign_judge "W1"
     = [ {| judge_id := "J2"; question_id := "Q1" |} ] /\
   owned_judges Sample.foreign_judge "W1" "U1" = [] /\
   fst run_foreign = Return {| status := 200; body := SuccessBody 0 0 0 0 [] |} /\
   evaluations (snd run_foreign) !! 1 = Some stale_2).
Proof. vm_compute. repeat split. Qed.

(** The question map never keeps the [null] that [getQuestionsForSubmissions]
    puts in [answer_json]: every entry carries what the answer map holds for
    its key, [undefined] when it holds nothing. *)
Lemma buildQuestionMap_answer (questions : list QuestionData)
    (answerMap : gmap string json) (k : string) (q : QuestionData) :
  buildQuestionMap questions answerMap !! k = Some q ->
  answer_json q = answerMap !! k.
Proof.
  unfold buildQuestionMap.
  assert (Hfold : forall (acc : gmap string QuestionData),
            (forall q', acc !! k = Some q' -> answer_json q' = answerMap !! k) ->
            foldl (fun questionMap q0 =>
                     <[q_id q0 := {| q_id := q_id q0; question_text := question_text q0;
                                     question_type := question_type q0;
                                     answer_json := answerMap !! q_id q0;
                                     submission_id := submission_id q0 |}]> questionMap)
                  acc questions !! k = Some q ->
            answer_json q = answerMap !! k).
  { induction questions as [| q0 rest IH]; intros acc Hacc; cbn [foldl]; [by apply Hacc |].
    apply IH. intros q'. rewrite lookup_insert.
    destruct (decide (q_id q0 = k)) as [<- |]; [by intros [= <-] | by apply Hacc]. }
  apply Hfold. intros q'. by rewrite lookup_empty.
Qed.

(** The answer map holds nothing for a question without an answer row. *)
Lemma getAnswersForQuestions_missing (env : Env) (questionIds : list string)
    (w w' : World) (answerMap : gmap string json) (k : string) :
  getAnswersForQuestions env questionIds w = (Return answerMap, w') ->
  (forall a, a ∈ answers w -> ans_question_id a <> k) ->
  answerMap !! k = None.
Proof.
  unfold getAnswersForQuestions. run.
  destruct (db_error env (db_calls w)); [done |].
  intros [= <- _] Hrows.
  assert (Hfold : forall (rows : list AnswerRow) (acc : gmap string json),
            (forall a, a ∈ rows -> ans_question_id a <> k) -> acc !! k = None ->
            foldl (fun answerMap a => <[ans_question_id a := ans_answer_json a]> answerMap)
                  acc rows !! k = None).
  { induction rows as [| a rest IH]; intros acc Hrest Hacc; cbn [foldl]; [done |].
    apply IH; [intros a' Ha'; apply Hrest; by right |].
    rewrite lookup_insert_ne; [done | apply Hrest; left]. }
  apply Hfold; [| apply lookup_empty].
  intros a [_ Ha]%list_elem_of_filter. by apply Hrows.
Qed.

(** The text the prompt shows for an [undefined] answer. *)
Lemma undefined_answer_text (env : Env) :
  interpolate (stringify_answer env None) = "undefined".
Proof. reflexivity. Qed.

(** C6 fails on the code: question Q2 has no answer row, the run succeeds
    and evaluates it, but the answer handed to the prompt builder is
    [undefined], and the prompt shows the text [undefined] where an answer
    of JSON [null] would show [null]. *)
Theorem missing_answer_prompt :
  let run := serve Sample.online (Sample.post "W1" "U1") Sample.world in
  fst run = Return {| status := 200; body := SuccessBody 2 0 2 0 Sample.two_failures |} /\
  rq_user <$> http_log (snd run) !! 1
    = Some (buildTypeSpecificPrompt Sample.online None "Why?" None) /\
  buildTypeSpecificPrompt Sample.online None "Why?" None
    = default_prompt "Why?" "undefined" /\
  buildTypeSpecificPrompt Sample.online None "Why?" (Some JNull)
    = default_prompt "Why?" "null" /\
  Str.includes (buildTypeSpecificPrompt Sample.online None "Why?" None)
               ("Answer JSON:" +:+ Str.nl +:+ "null") = false.
Proof. vm_compute. repeat split. Qed.

(** ** The evaluations table ([saveEvaluation], [deleteOldEvaluations]) *)

#[export] Existing Instance conflicts_dec.

Lemma conflicts_pair (questionId judgeId : string) (e : EvaluationRow) :
  conflicts questionId judgeId e <-> pair_of e = (questionId, judgeId).
Proof. unfold conflicts, pair_of. split; [by intros [-> ->] | by intros [= -> ->]]. Qed.

Lemma upsert_conflict (submissionId questionId judgeId verdict : string) (reasoning : json)
    (rows : list EvaluationRow) :
  Exists (conflicts questionId judgeId) rows ->
  upsert submissionId questionId judgeId verdict reasoning rows
  = (fun e => if decide (conflicts questionId judgeId e)
              then {| ev_id := ev_id e; ev_submission_id := submissionId;
                      ev_question_id := questionId; ev_judge_id := judgeId;
                      ev_verdict := verdict; ev_reasoning := reasoning |}
              else e) <$> rows.
Proof. intros Hex. unfold upsert. by rewrite decide_True. Qed.

Lemma upsert_fresh (submissionId questionId judgeId verdict : string) (reasoning : json)
    (rows : list EvaluationRow) :
  ~ Exists (conflicts questionId judgeId) rows ->
  upsert submissionId questionId judgeId verdict reasoning rows
  = rows ++ [ {| ev_id := fresh (ev_id <$> rows); ev_submission_id := submissionId;
                 ev_question_id := questionId; ev_judge_id := judgeId;
                 ev_verdict := verdict; ev_reasoning := reasoning |} ].
Proof. intros Hex. unfold upsert. by rewrite decide_False. Qed.

(** An upsert keeps the primary key and the unique constraint. *)
Lemma upsert_keeps_keys (submissionId questionId judgeId verdict : string)
    (reasoning : json) (rows : list EvaluationRow) :
  evaluation_keys rows ->
  evaluation_keys (upsert submissionId questionId judgeId verdict reasoning rows).
Proof.
  intros [Hids Hpairs]. unfold evaluation_keys.
  destruct (decide (Exists (conflicts questionId judgeId) rows)) as [Hex | Hex].
  - rewrite (upsert_conflict _ _ _ _ _ _ Hex), <- !list_fmap_compose.
    rewrite (list_fmap_ext _ ev_id rows), (list_fmap_ext _ pair_of rows); [done | |].
    + intros i e _. cbn. destruct (decide _) as [[<- <-] |]; done.
    + intros i e _. cbn. by destruct (decide _).
  - rewrite (upsert_fresh _ _ _ _ _ _ Hex), !fmap_app. cbn [fmap list_fmap].
    split; apply NoDup_app; (split; [done |]); (split; [| apply NoDup_singleton]).
    + intros i Hi ->%list_elem_of_singleton. cbn in Hi. by apply infinite_is_fresh in Hi.
    + intros p Hp ->%list_elem_of_singleton.
      apply list_elem_of_fmap in Hp as [e [He%eq_sym%conflicts_pair Hin]].
      apply Hex, Exists_exists. by exists e.
Qed.

(** Of two upserts for the same pair, the last one wins. *)
Lemma upsert_last_wins (submissionId submissionId' questionId judgeId verdict verdict' : string)
    (reasoning reasoning' : json) (rows : list EvaluationRow) :
  upsert submissionId' questionId judgeId verdict' reasoning'
         (upsert submissionId questionId judgeId verdict reasoning rows)
  = upsert submissionId' questionId judgeId verdict' reasoning' rows.
Proof.
  destruct (decide (Exists (conflicts questionId judgeId) rows)) as [Hex | Hex].
  - rewrite (upsert_conflict _ _ _ verdict _ _ Hex), (upsert_conflict _ _ _ verdict' _ _ Hex).
    rewrite upsert_conflict.
    + rewrite <- list_fmap_compose. apply list_fmap_ext. intros i e _. cbn.
      destruct (decide (conflicts questionId judgeId e)) as [He | He].
      * by rewrite decide_True.
      * by rewrite decide_False.
    + apply Exists_exists in Hex as [e [Hin He]]. apply Exists_exists.
      eexists. split; [by apply list_elem_of_fmap_2 |].
      by rewrite decide_True.
  - rewrite (upsert_fresh _ _ _ verdict _ _ Hex), (upsert_fresh _ _ _ verdict' _ _ Hex).
    rewrite upsert_conflict; [| apply Exists_app; right; by constructor].
    rewrite fmap_app. cbn [fmap list_fmap]. rewrite decide_True; [| done].
    f_equal. rewrite <- (list_fmap_id rows) at 2. apply list_fmap_ext.
    intros i e Hin. cbn. rewrite decide_False; [done |].
    intros He. apply Hex, Exists_exists. exists e. split; [| done].
    by eapply list_elem_of_lookup_2.
Qed.

Lemma saveEvaluation_run (env : Env) (submissionId questionId judgeId verdict : string)
    (reasoning : json) (w : World) :
  saveEvaluation env submissionId questionId judgeId verdict reasoning w
  = match db_error env (db_calls w) with
    | Some e => (Throw e, tick w)
    | None => (Return tt,
               set_evaluations (upsert submissionId questionId judgeId verdict reasoning
                                       (evaluations w)) (tick w))
    end.
Proof. unfold saveEvaluation. run. by destruct (db_error env (db_calls w)). Qed.

Lemma unique_pair_rows (questionId judgeId : string) (rows : list EvaluationRow) :
  NoDup (pair_of <$> rows) ->
  filter (conflicts questionId judgeId) rows = []
  \/ exists e, filter (conflicts questionId judgeId) rows = [e].
Proof.
  induction rows as [| e rows IH]; [by left |].
  rewrite fmap_cons, NoDup_cons. intros [Hnew Hrest]. rewrite filter_cons.
  destruct (decide (conflicts questionId judgeId e)) as [He | He]; [| by apply IH].
  right. exists e. f_equal.
  destruct (filter _ rows) as [| e' l] eqn:Hfilter; [done |].
  assert (Hin : e' ∈ filter (conflicts questionId judgeId) rows)
    by (rewrite Hfilter; left).
  apply list_elem_of_filter in Hin as [He' Hin].
  destruct Hnew. apply conflicts_pair in He, He'. rewrite He, <- He'.
  by apply list_elem_of_fmap_2.
Qed.

Lemma filter_other_pairs (submissionId questionId judgeId verdict : string)
    (reasoning : json) (rows : list EvaluationRow) :
  filter (fun e => ~ conflicts questionId judgeId e)
         (upsert submissionId questionId judgeId verdict reasoning rows)
  = filter (fun e => ~ conflicts questionId judgeId e) rows.
Proof.
  destruct (decide (Exists (conflicts questionId judgeId) rows)) as [Hex | Hex].
  - rewrite (upsert_conflict _ _ _ _ _ _ Hex). clear Hex.
    induction rows as [| e rows IH]; [done |].
    rewrite fmap_cons, !filter_cons, IH.
    destruct (decide (conflicts questionId judgeId e)) as [He | He].
    + case_decide as Hnew; [by destruct Hnew |].
      case_decide as Hold; [by destruct Hold | done].
    + repeat case_decide; done.
  - rewrite (upsert_fresh _ _ _ _ _ _ Hex), filter_app, filter_cons.
    case_decide as Hnew; [by destruct Hnew | by rewrite filter_nil, app_nil_r].
Qed.

Lemma filter_this_pair (submissionId questionId judgeId verdict : string)
    (reasoning : json) (rows : list EvaluationRow) :
  NoDup (pair_of <$> rows) ->
  exists e, filter (conflicts questionId judgeId)
                   (upsert submissionId questionId judgeId verdict reasoning rows) = [e]
            /\ ev_submission_id e = submissionId /\ ev_verdict e = verdict
            /\ ev_reasoning e = reasoning.
Proof.
  intros Hpairs.
  destruct (decide (Exists (conflicts questionId judgeId) rows)) as [Hex | Hex].
  - rewrite (upsert_conflict _ _ _ _ _ _ Hex).
    assert (Hmap : forall l : list EvaluationRow,
              filter (conflicts questionId judgeId)
                ((fun e => if decide (conflicts questionId judgeId e)
                           then {| ev_id := ev_id e; ev_submission_id := submissionId;
                                   ev_question_id := questionId; ev_judge_id := judgeId;
                                   ev_verdict := verdict; ev_reasoning := reasoning |}
                           else e) <$> l)
              = (fun e => {| ev_id := ev_id e; ev_submission_id := submissionId;
                             ev_question_id := questionId; ev_judge_id := judgeId;
                             ev_verdict := verdict; ev_reasoning := reasoning |})
                <$> filter (conflicts questionId judgeId) l).
    { induction l as [| e l IH]; [done |].
      rewrite fmap_cons, !filter_cons, IH.
      destruct (decide (conflicts questionId judgeId e)) as [He | He].
      - case_decide as Hnew; [done | by destruct Hnew].
      - by case_decide. }
    rewrite Hmap.
    destruct (unique_pair_rows questionId judgeId rows Hpairs) as [Hnone | [e ->]].
    + apply Exists_exists in Hex as [e [Hin He]].
      by destruct (filter_nil_not_elem_of _ _ e Hnone He).
    + by eexists.
  - rewrite (upsert_fresh _ _ _ _ _ _ Hex), filter_app, filter_cons.
    case_decide as Hnew; [| by destruct Hnew]. rewrite filter_nil.
    assert (Hnone : filter (conflicts questionId judgeId) rows = []).
    { destruct (filter _ rows) as [| e l] eqn:Hfilter; [done |].
      assert (Hin : e ∈ filter (conflicts questionId judgeId) rows)
        by (rewrite Hfilter; left).
      apply list_elem_of_filter in Hin as [He Hin].
      destruct Hex. apply Exists_exists. by exists e. }
    rewrite Hnone. by eexists.
Qed.

(** X1: a save that succeeds on a table that respects its keys (the primary
    key [id] and the unique pair of question and judge) leaves a table that
    respects them, with exactly one row for the pair, carrying the given
    submission, verdict and reasoning; the rows of the other pairs are the
    ones that were there, in their order. *)
Theorem saveEvaluation_stores (env : Env) (submissionId questionId judgeId verdict : string)
    (reasoning : json) (w w' : World) :
  saveEvaluation env submissionId questionId judgeId verdict reasoning w = (Return tt, w') ->
  evaluation_keys (evaluations w) ->
  evaluation_keys (evaluations w') /\
  (exists e, filter (conflicts questionId judgeId) (evaluations w') = [e]
             /\ ev_submission_id e = submissionId /\ ev_verdict e = verdict
             /\ ev_reasoning e = reasoning) /\
  filter (fun e => ~ conflicts questionId judgeId e) (evaluations w')
  = filter (fun e => ~ conflicts questionId judgeId e) (evaluations w).
Proof.
  rewrite saveEvaluation_run. destruct (db_error env (db_calls w)); [done |].
  intros [= <-] Hkeys. cbn [evaluations set_evaluations].
  split_and!.
  - by apply upsert_keeps_keys.
  - apply filter_this_pair, Hkeys.
  - apply filter_other_pairs.
Qed.

Lemma saveEvaluation_stores_witness :
  exists e,
    filter (conflicts "Q1" "J1")
           (evaluations (snd (saveEvaluation Sample.offline "S1" "Q1" "J1" "pass"
                                (JStr "Right.") Sample.world)))
    = [e] /\ ev_verdict e = "pass".
Proof.
  destruct (saveEvaluation_stores Sample.offline "S1" "Q1" "J1" "pass" (JStr "Right.")
              Sample.world
              (snd (saveEvaluation Sample.offline "S1" "Q1" "J1" "pass" (JStr "Right.")
                      Sample.world)))
    as (_ & (e & He & _ & Hverdict & _) & _).
  - reflexivity.
  - split; apply (bool_decide_unpack _); vm_compute; exact I.
  - by exists e.
Defined.

(** X2: two saves for the same pair leave what the second alone would have
    left: the first verdict is overwritten, no row is added for it. *)
Theorem saveEvaluation_last_wins (env : Env)
    (submissionId submissionId' questionId judgeId verdict verdict' : string)
    (reasoning reasoning' : json) (w w1 w2 : World) :
  saveEvaluation env submissionId questionId judgeId verdict reasoning w = (Return tt, w1) ->
  saveEvaluation env submissionId' questionId judgeId verdict' reasoning' w1
  = (Return tt, w2) ->
  evaluations w2
  = upsert submissionId' questionId judgeId verdict' reasoning' (evaluations w).
Proof.
  rewrite !saveEvaluation_run.
  destruct (db_error env (db_calls w)); [done |]. intros [= <-].
  destruct (db_error env _); [done |]. intros [= <-].
  cbn [evaluations set_evaluations tick]. apply upsert_last_wins.
Qed.

Lemma saveEvaluation_last_wins_witness :
  evaluations (snd (saveEvaluation Sample.offline "S1" "Q2" "J1" "pass" (JStr "Right.")
                      (snd (saveEvaluation Sample.offline "S1" "Q2" "J1" "fail" JNull
                              Sample.world))))
  = upsert "S1" "Q2" "J1" "pass" (JStr "Right.") (evaluations Sample.world).
Proof.
  by apply (saveEvaluation_last_wins Sample.offline "S1" "S1" "Q2" "J1" "fail" "pass" JNull
              (JStr "Right.") Sample.world
              (snd (saveEvaluation Sample.offline "S1" "Q2" "J1" "fail" JNull Sample.world))).
Defined.

Lemma filter_equiv_in {A} (P Q : A -> Prop) `{!forall x, Decision (P x)}
    `{!forall x, Decision (Q x)} (l : list A) :
  (forall x, x ∈ l -> P x <-> Q x) -> filter P l = filter Q l.
Proof.
  induction l as [| x l IH]; intros HPQ; [done |].
  rewrite !filter_cons, IH by (intros y Hy; apply HPQ; by right).
  destruct (HPQ x) as [H1 H2]; [left |].
  destruct (decide (P x)), (decide (Q x)); try done; tauto.
Qed.

Lemma filter_all {A} (P : A -> Prop) `{!forall x, Decision (P x)} (l : list A) :
  (forall x, x ∈ l -> P x) -> filter P l = l.
Proof.
  induction l as [| x l IH]; intros HP; [done |].
  rewrite filter_cons, IH by (intros y Hy; apply HP; by right).
  destruct (decide (P x)) as [| Hx]; [done |]. destruct Hx. apply HP. left.
Qed.

Lemma assigned_valid (assignments : list Assignment) (e : EvaluationRow) :
  assigned assignments e ->
  pairKey (ev_question_id e) (ev_judge_id e)
  ∈ foldl (fun pairs a => pairs ∪ {[ pairKey (question_id a) (judge_id a) ]})
          (∅ : gset string) assignments.
Proof.
  intros (a & Ha & Hq & Hj)%Exists_exists. apply elem_of_validPairs. right.
  exists a. by rewrite Hq, Hj.
Qed.

Lemma valid_assigned (assignments : list Assignment) (e : EvaluationRow) :
  colon_free (ev_question_id e) = true ->
  (forall a, a ∈ assignments -> colon_free (question_id a) = true) ->
  pairKey (ev_question_id e) (ev_judge_id e)
  ∈ foldl (fun pairs a => pairs ∪ {[ pairKey (question_id a) (judge_id a) ]})
          (∅ : gset string) assignments ->
  assigned assignments e.
Proof.
  intros He Hassignments [Hempty | [a [Ha Hkey]]]%elem_of_validPairs;
    [by apply not_elem_of_empty in Hempty |].
  apply Exists_exists. exists a. split; [done |].
  by destruct (pairKey_inj _ _ _ _ He (Hassignments a Ha) Hkey) as [-> ->].
Qed.

(** X3: with UUID identifiers and [id] the primary key, a reconciliation
    that returns has removed exactly the stale rows (those of a given
    question whose pair has no assignment): what is left is the table
    filtered, in its order. *)
Theorem deleteOldEvaluations_exact (env : Env) (questionIds : list string)
    (currentAssignments : list Assignment) (w w' : World) :
  deleteOldEvaluations env questionIds currentAssignments w = (Return tt, w') ->
  NoDup (ev_id <$> evaluations w) ->
  (forall e, e ∈ evaluations w -> colon_free (ev_question_id e) = true) ->
  (forall a, a ∈ currentAssignments -> colon_free (question_id a) = true) ->
  evaluations w'
  = filter (fun e => ¬ stale questionIds currentAssignments e) (evaluations w).
Proof.
  intros Hrun Hkey Hrows Hassignments. revert Hrun. unfold deleteOldEvaluations.
  destruct (decide (length questionIds = 0)) as [Hnil%nil_length_inv |].
  { intros [= <-]. symmetry. apply filter_all. intros e _ [Hq _].
    rewrite Hnil in Hq. by apply elem_of_nil in Hq. }
  run. destruct (db_error env (db_calls w)); [done |].
  destruct (decide (length _ = 0)) as [Hnone%nil_length_inv |].
  { intros [= <-]. cbn [evaluations tick]. symmetry. apply filter_all.
    intros e He [Hq _]. by destruct (filter_nil_not_elem_of _ _ e Hnone Hq). }
  destruct (decide (length _ = 0)) as [Hnone%nil_length_inv |].
  { intros [= <-]. cbn [evaluations tick]. symmetry. apply filter_all.
    intros e He [Hq Hstale]. apply Hstale, valid_assigned; [by apply Hrows | done |].
    destruct (decide (pairKey (ev_question_id e) (ev_judge_id e)
                      ∈ foldl (fun pairs a => pairs ∪ {[ pairKey (question_id a) (judge_id a) ]})
                              (∅ : gset string) currentAssignments)) as [| Hout]; [done |].
    destruct (filter_nil_not_elem_of _ _ e Hnone Hout). by apply list_elem_of_filter. }
  run. destruct (db_error env (S (db_calls w))); [done |].
  intros [= <-]. cbn [evaluations set_evaluations].
  apply filter_equiv_in. intros e He. split.
  - intros Hid [Hq Hstale]. apply Hid, list_elem_of_fmap_2.
    rewrite !list_elem_of_filter. split_and!; [| done | done].
    intros Hvalid. by apply Hstale, valid_assigned; [apply Hrows | |].
  - intros Hkeep [e' [Hid He']]%list_elem_of_fmap.
    apply list_elem_of_filter in He' as [Hpair [Hq He']%list_elem_of_filter].
    rewrite <- (key_unique ev_id _ e e' Hkey He He' Hid) in Hpair, Hq.
    apply Hkeep. split; [done |]. intros Hassigned. by apply Hpair, assigned_valid.
Qed.

Lemma deleteOldEvaluations_exact_witness :
  evaluations (snd (deleteOldEvaluations Sample.offline ["Q1"; "Q2"]
                      (judge_assignments Sample.world) Sample.world))
  = filter (fun e => ¬ stale ["Q1"; "Q2"] (judge_assignments Sample.world) e)
           (evaluations Sample.world).
Proof.
  apply (deleteOldEvaluations_exact Sample.offline ["Q1"; "Q2"]
           (judge_assignments Sample.world) Sample.world).
  - reflexivity.
  - apply (bool_decide_unpack _). vm_compute. exact I.
  - apply Forall_forall. vm_compute. repeat constructor.
  - apply Forall_forall. vm_compute. repeat constructor.
Defined.

(** ** The answer map ([getAnswersForQuestions]) *)

(** A map built by inserting the entries of a list in order holds, for each
    key, the value of the last entry with that key. *)
Lemma foldl_insert_lookup {A V} (key : A -> string) (val : A -> V) (l : list A)
    (acc : gmap string V) (k : string) :
  foldl (fun m x => <[key x := val x]> m) acc l !! k
  = match last (filter (fun x => key x = k) l) with
    | Some x => Some (val x)
    | None => acc !! k
    end.
Proof.
  induction l as [| x l IH] using rev_ind; [done |].
  rewrite foldl_app, filter_app. cbn [foldl]. rewrite lookup_insert.
  rewrite filter_cons, filter_nil.
  destruct (decide (key x = k)) as [Hk | Hk].
  - by rewrite last_snoc.
  - by rewrite app_nil_r.
Qed.

(** X4: the answer map holds, for a requested question, the answer of the
    last answer row of that question, and nothing for a question that was
    not requested or has no answer row. *)
Theorem getAnswersForQuestions_lookup (env : Env) (questionIds : list string)
    (w w' : World) (answerMap : gmap string json) (k : string) :
  getAnswersForQuestions env questionIds w = (Return answerMap, w') ->
  answerMap !! k
  = if decide (k ∈ questionIds)
    then ans_answer_json <$> last (filter (fun a => ans_question_id a = k) (answers w))
    else None.
Proof.
  unfold getAnswersForQuestions. run.
  destruct (db_error env (db_calls w)); [done |]. intros [= <- _].
  cbn [answers tick].
  rewrite (foldl_insert_lookup ans_question_id ans_answer_json), lookup_empty.
  rewrite list_filter_filter.
  destruct (decide (k ∈ questionIds)) as [Hk | Hk].
  - rewrite (filter_equiv _ (fun a => ans_question_id a = k));
      [by destruct (last _) |].
    intros a. split; [by intros [? _] | by intros <-].
  - assert (Hnone : filter (fun a => ans_question_id a = k ∧ ans_question_id a ∈ questionIds)
                           (answers w) = []).
    { induction (answers w) as [| a l IH]; [done |].
      rewrite filter_cons. by destruct (decide _) as [[<- ?] |]. }
    by rewrite Hnone.
Qed.

Lemma getAnswersForQuestions_lookup_witness :
  fst (getAnswersForQuestions Sample.offline ["Q1"; "Q2"] Sample.world)
  = Return (answer_map (answers Sample.world)) /\
  answer_map (answers Sample.world) !! "Q1" = Some (JObj [("choice", JStr "B")]) /\
  answer_map (answers Sample.world) !! "Q2" = None.
Proof.
  split; [reflexivity |].
  split.
  - by rewrite (getAnswersForQuestions_lookup Sample.offline ["Q1"; "Q2"] Sample.world
                  (snd (getAnswersForQuestions Sample.offline ["Q1"; "Q2"] Sample.world))
                  (answer_map (answers Sample.world)) "Q1" eq_refl).
  - by rewrite (getAnswersForQuestions_lookup Sample.offline ["Q1"; "Q2"] Sample.world
                  (snd (getAnswersForQuestions Sample.offline ["Q1"; "Q2"] Sample.world))
                  (answer_map (answers Sample.world)) "Q2" eq_refl).
Defined.

(** ** The requests of the model caller ([callOpenAI]) *)

(** X5: the model caller only talks to the provider: it leaves the database
    alone and sends one request or two, built from its arguments; the first
    carries the temperature 0 when the model supports it, the second never
    carries one. *)
Theorem callOpenAI_only_requests (env : Env) (apiKey systemPrompt questionText : string)
    (questionType : option string) (answerJson : jsval) (model : string) (w : World) :
  let userPrompt := buildTypeSpecificPrompt env questionType questionText answerJson in
  let request := chat_request apiKey systemPrompt userPrompt model in
  let w' := snd (callOpenAI env apiKey systemPrompt questionText questionType answerJson
                            model w) in
  same_configuration w w' /\ evaluations w' = evaluations w /\ db_calls w' = db_calls w /\
  (http_log w' = http_log w ++ [request (if supportsTemperature model then Some 0 else None)]
   \/ http_log w' = http_log w ++ [request (if supportsTemperature model then Some 0 else None);
                                   request None]).
Proof.
  intros userPrompt request w'. subst w' request. unfold chat_request, same_configuration.
  unfold callOpenAI, makeRequest, fetch. run. fold userPrompt. clearbody userPrompt.
  destruct (provider env _) as [r1 | e1];
    [| destruct (is_AbortError e1); run; split_and!; by auto].
  destruct (negb (ok r1)); [| split_and!; by auto].
  destruct (shouldRetry env (rs_text r1)); run.
  - destruct (provider env _) as [r2 | e2]; [| destruct (is_AbortError e2)];
      run; split_and!; try done; right; by rewrite <- app_assoc.
  - destruct (first_error_message env (rs_text r1)); split_and!; by auto.
Qed.

(** X6: a first response that is a success is kept: one request is sent,
    there is no retry, and the result is read from that response. *)
Theorem callOpenAI_first_success (env : Env) (apiKey systemPrompt questionText : string)
    (questionType : option string) (answerJson : jsval) (model : string) (w : World)
    (r : Response) :
  let userPrompt := buildTypeSpecificPrompt env questionType questionText answerJson in
  let first := chat_request apiKey systemPrompt userPrompt model
                            (if supportsTemperature model then Some 0 else None) in
  provider env (http_log w ++ [first]) = Responds r ->
  ok r = true ->
  callOpenAI env apiKey systemPrompt questionText questionType answerJson model w
  = (finish env model r, log_request first w).
Proof.
  intros userPrompt first Hprovider Hok. subst first. unfold chat_request in Hprovider.
  unfold callOpenAI, makeRequest, fetch. run. fold userPrompt.
  by rewrite Hprovider, Hok.
Qed.

Lemma callOpenAI_first_success_witness :
  callOpenAI Sample.online "sk-reference" "The correct answer is B."
             "Which option is prime?" (Some "multiple_choice") (Some (JStr "B")) "gpt-4"
             Sample.world
  = (Return {| oa_verdict := "fail"; oa_reasoning := JStr "B is wrong" |},
     log_request
       (chat_request "sk-reference" "The correct answer is B."
          (buildTypeSpecificPrompt Sample.online (Some "multiple_choice")
             "Which option is prime?" (Some (JStr "B")))
          "gpt-4" (Some 0))
       Sample.world).
Proof.
  by rewrite (callOpenAI_first_success Sample.online "sk-reference"
                "The correct answer is B." "Which option is prime?"
                (Some "multiple_choice") (Some (JStr "B")) "gpt-4" Sample.world
                Sample.completion eq_refl eq_refl).
Defined.

(** X7: a request that is aborted after two minutes, or fails in the
    network, is not retried: the call throws after that one request, a
    timeout error naming the model for an abort, the error itself
    otherwise. *)
Theorem callOpenAI_network_failure (env : Env) (apiKey systemPrompt questionText : string)
    (questionType : option string) (answerJson : jsval) (model : string) (w : World)
    (e : thrown) :
  let userPrompt := buildTypeSpecificPrompt env questionType questionText answerJson in
  let first := chat_request apiKey systemPrompt userPrompt model
                            (if supportsTemperature model then Some 0 else None) in
  let run := callOpenAI env apiKey systemPrompt questionText questionType answerJson
                        model w in
  provider env (http_log w ++ [first]) = Rejects e ->
  http_log (snd run) = http_log w ++ [first] /\
  (is_AbortError e = false -> fst run = Throw e) /\
  (is_AbortError e = true ->
     exists message, fst run = Throw (new_Error message)
                     /\ contains message model /\ contains message "2 minutes").
Proof.
  intros userPrompt first run Hprovider. subst first run. unfold chat_request in Hprovider.
  unfold callOpenAI, makeRequest, fetch. run. fold userPrompt.
  rewrite Hprovider. destruct (is_AbortError e); run; split_and!; try done.
  intros _. eexists. split; [done |].
  split; apply StrFacts.includes_spec; find_substring.
Qed.

Lemma callOpenAI_network_failure_witness :
  exists message,
    fst (callOpenAI
           (Reference.runtime Reference.no_faults
              (fun _ => Rejects (JsError "AbortError" "The operation was aborted")))
           "sk-reference" "The correct answer is B." "Which option is prime?"
           (Some "multiple_choice") (Some (JStr "B")) "gpt-4" Sample.world)
    = Throw (new_Error message)
    /\ contains message "gpt-4" /\ contains message "2 minutes".
Proof.
  destruct (callOpenAI_network_failure
              (Reference.runtime Reference.no_faults
                 (fun _ => Rejects (JsError "AbortError" "The operation was aborted")))
              "sk-reference" "The correct answer is B." "Which option is prime?"
              (Some "multiple_choice") (Some (JStr "B")) "gpt-4" Sample.world
              (JsError "AbortError" "The operation was aborted") eq_refl)
    as (_ & _ & Habort).
  by apply Habort.
Defined.

(** X8: a verdict is only ever read from a success: when the call returns,
    the provider answered the last request sent with a success response, and
    the result is what [finish] reads from it. *)
Theorem callOpenAI_verdict_from_success (env : Env)
    (apiKey systemPrompt questionText : string) (questionType : option string)
    (answerJson : jsval) (model : string) (w w' : World) (result : OpenAIResponse) :
  callOpenAI env apiKey systemPrompt questionText questionType answerJson model w
  = (Return result, w') ->
  exists response,
    provider env (http_log w') = Responds response /\ ok response = true /\
    finish env model response = Return result.
Proof.
  unfold callOpenAI, makeRequest, fetch. run.
  destruct (provider env _) as [r1 | e1] eqn:Hfirst; [| destruct (is_AbortError e1); done].
  destruct (ok r1) eqn:Hok; cbn [negb]; run.
  { intros [= Hfinish <-]. by exists r1. }
  destruct (shouldRetry env (rs_text r1)).
  - run. destruct (provider env ((_ ++ _) ++ _)) as [r2 | e2] eqn:Hsecond;
      [| destruct (is_AbortError e2); done].
    run. intros [= Hfinish <-]. exists r2. split_and!; [done | | done].
    unfold finish in Hfinish. by destruct (ok r2).
  - run. by destruct (first_error_message env (rs_text r1)).
Qed.

Lemma callOpenAI_verdict_from_success_witness :
  exists response,
    provider Sample.online
      (http_log (snd (callOpenAI Sample.online "sk-reference" "The correct answer is B."
                        "Which option is prime?" (Some "multiple_choice")
                        (Some (JStr "B")) "gpt-4" Sample.world)))
    = Responds response /\ ok response = true /\
    finish Sample.online "gpt-4" response
    = Return {| oa_verdict := "fail"; oa_reasoning := JStr "B is wrong" |}.
Proof.
  apply (callOpenAI_verdict_from_success Sample.online "sk-reference"
           "The correct answer is B." "Which option is prime?" (Some "multiple_choice")
           (Some (JStr "B")) "gpt-4" Sample.world).
  vm_compute. reflexivity.
Defined.

(** X9: a model whose name contains, in any letter case, one of the four
    names known not to take a temperature is never sent one. *)
Theorem callOpenAI_no_temperature (env : Env) (apiKey systemPrompt questionText : string)
    (questionType : option string) (answerJson : jsval) (model m : string) (w : World)
    (q : ChatRequest) :
  m ∈ modelsWithoutTemperature ->
  contains (Str.toLowerCase model) m ->
  q ∈ http_log (snd (callOpenAI env apiKey systemPrompt questionText questionType
                               answerJson model w)) ->
  q ∈ http_log w \/ rq_temperature q = None.
Proof.
  intros Hm Hmodel.
  assert (Hsupport : supportsTemperature model = false).
  { unfold supportsTemperature. apply negb_false_iff, existsb_exists. exists m.
    split; [by apply list_elem_of_In |]. apply includes_contains.
    unfold modelsWithoutTemperature in Hm.
    by repeat (apply elem_of_cons in Hm as [-> | Hm]; [done |]); apply elem_of_nil in Hm. }
  unfold callOpenAI, makeRequest, fetch. rewrite Hsupport. run.
  destruct (provider env _) as [r1 | e1].
  2:{ destruct (is_AbortError e1); run;
        (intros [Hq | ->%list_elem_of_singleton]%elem_of_app; by auto). }
  destruct (negb (ok r1)); run.
  2:{ intros [Hq | ->%list_elem_of_singleton]%elem_of_app; by auto. }
  destruct (shouldRetry env (rs_text r1)); run.
  - destruct (provider env ((_ ++ _) ++ _)) as [r2 | e2]; [| destruct (is_AbortError e2)];
      run;
      (intros [[Hq | ->%list_elem_of_singleton]%elem_of_app
              | ->%list_elem_of_singleton]%elem_of_app; by auto).
  - destruct (first_error_message env (rs_text r1)); run;
      (intros [Hq | ->%list_elem_of_singleton]%elem_of_app; by auto).
Qed.

Lemma callOpenAI_no_temperature_witness :
  Forall (fun q => rq_temperature q = None)
         (http_log (snd (callOpenAI (Sample.scripted Sample.unsupported_temperature)
                           "sk-reference" "Accept any answer." "Why?" None None
                           "GPT-5-Mini-2025" Sample.world))).
Proof.
  apply Forall_forall. intros q Hq.
  destruct (callOpenAI_no_temperature (Sample.scripted Sample.unsupported_temperature)
              "sk-reference" "Accept any answer." "Why?" None None "GPT-5-Mini-2025"
              "gpt-5-mini" Sample.world q) as [Hold | Hnone]; [| | done | | done].
  - vm_compute. repeat constructor.
  - by exists "", "-2025".
  - by apply elem_of_nil in Hold.
Defined.

(** ** The footprint of the orchestrator ([evaluateAssignment]) *)

Lemma same_configuration_refl (w : World) : same_configuration w w.
Proof. by repeat split. Qed.

Lemma same_configuration_trans (w1 w2 w3 : World) :
  same_configuration w1 w2 -> same_configuration w2 w3 -> same_configuration w1 w3.
Proof.
  unfold same_configuration. intros (? & ? & ? & ? & ?) (? & ? & ? & ? & ?).
  split_and!; congruence.
Qed.

Lemma sends_refl (P : ChatRequest -> Prop) (n : nat) (w w' : World) :
  http_log w' = http_log w -> sends P n w w'.
Proof. intros Hlog. exists []. rewrite app_nil_r. split_and!; [done | done | simpl; lia]. Qed.

Lemma sends_trans (P : ChatRequest -> Prop) (n m : nat) (w1 w2 w3 : World) :
  sends P n w1 w2 -> sends P m w2 w3 -> sends P (n + m) w1 w3.
Proof.
  intros (s1 & H1 & HP1 & Hn) (s2 & H2 & HP2 & Hm). exists (s1 ++ s2).
  rewrite H2, H1, app_assoc, length_app. split_and!; [done | by apply Forall_app | lia].
Qed.

Lemma sends_then_quiet (P : ChatRequest -> Prop) (n : nat) (w1 w2 w3 : World) :
  sends P n w1 w2 -> http_log w3 = http_log w2 -> sends P n w1 w3.
Proof. intros (s & Hs & HP & Hn) Hlog. exists s. by rewrite Hlog. Qed.

Lemma sends_weaken (P Q : ChatRequest -> Prop) (n m : nat) (w w' : World) :
  (forall q, P q -> Q q) -> n <= m -> sends P n w w' -> sends Q m w w'.
Proof.
  intros HPQ Hnm (s & Hs & HP & Hn). exists s.
  split_and!; [done | by eapply Forall_impl | lia].
Qed.

Lemma callOpenAI_effect (env : Env) (apiKey systemPrompt questionText : string)
    (questionType : option string) (answerJson : jsval) (model : string) (w : World) :
  let w' := snd (callOpenAI env apiKey systemPrompt questionText questionType answerJson
                            model w) in
  same_configuration w w' /\ evaluations w' = evaluations w /\ db_calls w' = db_calls w /\
  sends (fun q => exists temperature,
           q = chat_request apiKey systemPrompt
                 (buildTypeSpecificPrompt env questionType questionText answerJson)
                 model temperature)
        2 w w'.
Proof.
  cbv zeta. unfold chat_request, same_configuration, sends.
  unfold callOpenAI, makeRequest, fetch. run.
  set (first := {| rq_temperature := if supportsTemperature model then Some 0 else None |}).
  set (second := {| rq_temperature := None |}).
  assert (Hone : exists sent, http_log w ++ [first] = http_log w ++ sent
            /\ Forall (fun q => exists temperature,
                         q = {| rq_bearer := apiKey; rq_model := model;
                                rq_system := systemPrompt;
                                rq_user := buildTypeSpecificPrompt env questionType
                                             questionText answerJson;
                                rq_temperature := temperature |}) sent
            /\ length sent <= 2).
  { exists [first]. split_and!; [done | | simpl; lia]. apply Forall_singleton. by eexists. }
  assert (Htwo : exists sent, (http_log w ++ [first]) ++ [second] = http_log w ++ sent
            /\ Forall (fun q => exists temperature,
                         q = {| rq_bearer := apiKey; rq_model := model;
                                rq_system := systemPrompt;
                                rq_user := buildTypeSpecificPrompt env questionType
                                             questionText answerJson;
                                rq_temperature := temperature |}) sent
            /\ length sent <= 2).
  { exists [first; second]. split_and!; [by rewrite <- app_assoc | | simpl; lia].
    repeat constructor; by eexists. }
  destruct (provider env _) as [r1 | e1];
    [| destruct (is_AbortError e1); run; by split_and!].
  destruct (negb (ok r1)); [| by split_and!].
  destruct (shouldRetry env (rs_text r1)); run.
  - destruct (provider env _) as [r2 | e2]; [| destruct (is_AbortError e2)];
      run; by split_and!.
  - destruct (first_error_message env (rs_text r1)); by split_and!.
Qed.

Lemma saveEvaluation_effect (env : Env) (submissionId questionId judgeId verdict : string)
    (reasoning : json) (w : World) :
  let w' := snd (saveEvaluation env submissionId questionId judgeId verdict reasoning w) in
  same_configuration w w' /\ http_log w' = http_log w /\ db_calls w' = S (db_calls w).
Proof.
  cbv zeta. rewrite saveEvaluation_run.
  by destruct (db_error env (db_calls w)).
Qed.

(** One pass of the orchestrator, seen from outside. *)
Lemma evaluateAssignment_effect (env : Env) (assignment : Assignment) (judge : JudgeData)
    (question : QuestionData) (openaiApiKey : string) (w : World) :
  exists result w',
    evaluateAssignment env assignment judge question openaiApiKey w = (Return result, w') /\
    result_pair result = assignment_pair assignment /\
    valid_result result /\
    same_configuration w w' /\
    db_calls w < db_calls w' <= db_calls w + 2 /\
    sends (request_for env openaiApiKey judge question) 2 w w'.
Proof.
  unfold evaluateAssignment, request_for. run.
  destruct (callOpenAI_effect env openaiApiKey (system_prompt judge) (question_text question)
              (question_type question) (answer_json question) (model judge) w)
    as (Hconfig & _ & Hcalls & Hsends).
  pose proof (callOpenAI_result env openaiApiKey (system_prompt judge)
                (question_text question) (question_type question) (answer_json question)
                (model judge) w) as Hverdict.
  destruct (callOpenAI _ _ _ _ _ _ _ _) as [[result | e] w1]; cbn [snd] in *.
  - destruct (Hverdict w1 result eq_refl) as [r Hr%finish_verdict].
    destruct (saveEvaluation_effect env (submission_id question) (question_id assignment)
                (judge_id assignment) (oa_verdict result)
                (or_else (Some (oa_reasoning result)) JNull) w1) as (Hc1 & Hl1 & Hd1).
    destruct (saveEvaluation _ _ _ _ _ _ w1) as [[[] | e] w2]; cbn [snd] in *.
    + do 2 eexists. split_and!; [reflexivity | reflexivity | exact Hr | | lia | lia |].
      * by eapply same_configuration_trans.
      * by eapply sends_then_quiet.
    + destruct (saveEvaluation_effect env (submission_id question) (question_id assignment)
                  (judge_id assignment) "inconclusive"
                  (JStr ("Error: " +:+ message_or_unknown e)) w2) as (Hc2 & Hl2 & Hd2).
      destruct (saveEvaluation _ _ _ _ _ _ w2) as [[[] | e'] w3]; cbn [snd] in *;
        (do 2 eexists; split_and!;
         [reflexivity | reflexivity | apply inconclusive_allowed | | lia | lia |];
         [ eapply same_configuration_trans; [| done];
           by eapply same_configuration_trans
         | eapply sends_then_quiet; [done | congruence] ]).
  - destruct (saveEvaluation_effect env (submission_id question) (question_id assignment)
                (judge_id assignment) "inconclusive"
                (JStr ("Error: " +:+ message_or_unknown e)) w1) as (Hc1 & Hl1 & Hd1).
    destruct (saveEvaluation _ _ _ _ _ _ w1) as [[[] | e'] w2]; cbn [snd] in *;
      (do 2 eexists; split_and!;
       [reflexivity | reflexivity | apply inconclusive_allowed | | lia | lia |];
       [ by eapply same_configuration_trans
       | by eapply sends_then_quiet ]).
Qed.

(** X10: one pass of the orchestrator leaves the configuration tables as
    they are, makes one round trip to the database or two, and sends at most
    two requests, each with the given key, the system prompt and the model
    of the judge, and the prompt built from the question. *)
Theorem evaluateAssignment_footprint (env : Env) (assignment : Assignment)
    (judge : JudgeData) (question : QuestionData) (openaiApiKey : string) (w : World) :
  let w' := snd (evaluateAssignment env assignment judge question openaiApiKey w) in
  same_configuration w w' /\
  db_calls w < db_calls w' <= db_calls w + 2 /\
  sends (request_for env openaiApiKey judge question) 2 w w'.
Proof.
  cbv zeta.
  destruct (evaluateAssignment_effect env assignment judge question openaiApiKey w)
    as (result & w' & Hrun & _ & _ & Hconfig & Hcalls & Hsends).
  rewrite Hrun. cbn [snd]. split_and!; try done; lia.
Qed.

(** X11: when the statement that saves succeeds, one pass of the
    orchestrator makes exactly one round trip and leaves, for the pair of the
    assignment, exactly one evaluation row: it carries the verdict that is
    returned and the submission of the question, and, for a failure, the
    error message after [Error: ].  The rows of other pairs and the keys of
    the table are kept. *)
Theorem evaluateAssignment_persists (env : Env) (assignment : Assignment)
    (judge : JudgeData) (question : QuestionData) (openaiApiKey : string) (w : World) :
  db_error env (db_calls w) = None ->
  evaluation_keys (evaluations w) ->
  exists result w' e,
    evaluateAssignment env assignment judge question openaiApiKey w = (Return result, w') /\
    db_calls w' = S (db_calls w) /\
    evaluation_keys (evaluations w') /\
    filter (conflicts (question_id assignment) (judge_id assignment)) (evaluations w') = [e] /\
    ev_verdict e = verdict result /\
    ev_submission_id e = submission_id question /\
    (forall message, error result = Some message ->
       ev_reasoning e = JStr ("Error: " +:+ message)) /\
    filter (fun e => ~ conflicts (question_id assignment) (judge_id assignment) e)
           (evaluations w')
    = filter (fun e => ~ conflicts (question_id assignment) (judge_id assignment) e)
             (evaluations w).
Proof.
  intros Hdb Hkeys. unfold evaluateAssignment. run.
  destruct (callOpenAI_effect env openaiApiKey (system_prompt judge) (question_text question)
              (question_type question) (answer_json question) (model judge) w)
    as (_ & Hrows & Hcalls & _).
  destruct (callOpenAI _ _ _ _ _ _ _ _) as [[result | e] w1]; cbn [snd] in *;
    rewrite saveEvaluation_run, Hcalls, Hdb; run; rewrite Hrows.
  - destruct (filter_this_pair (submission_id question) (question_id assignment)
                (judge_id assignment) (oa_verdict result)
                (or_else (Some (oa_reasoning result)) JNull) (evaluations w))
      as (row & Hrow & Hsubmission & Hverdict & _); [apply Hkeys |].
    eexists _, _, row. split; [reflexivity |]. run. cbn [verdict error].
    split_and!; try done; [congruence | by apply upsert_keeps_keys | apply filter_other_pairs].
  - destruct (filter_this_pair (submission_id question) (question_id assignment)
                (judge_id assignment) "inconclusive"
                (JStr ("Error: " +:+ message_or_unknown e)) (evaluations w))
      as (row & Hrow & Hsubmission & Hverdict & Hreasoning); [apply Hkeys |].
    eexists _, _, row. split; [reflexivity |]. run. cbn [verdict error failure_result].
    split_and!; try done;
      [congruence | by apply upsert_keeps_keys | by intros ? [= <-]
      | apply filter_other_pairs].
Qed.

Lemma evaluateAssignment_persists_witness :
  exists result w' e,
    evaluateAssignment Sample.online {| judge_id := "J1"; question_id := "Q2" |}
      Sample.judge
      {| q_id := "Q2"; question_text := "Why?"; question_type := None;
         answer_json := None; submission_id := "S1" |}
      "sk-reference" Sample.world
    = (Return result, w') /\
    filter (conflicts "Q2" "J1") (evaluations w') = [e] /\
    ev_verdict e = verdict result.
Proof.
  destruct (evaluateAssignment_persists Sample.online
              {| judge_id := "J1"; question_id := "Q2" |} Sample.judge
              {| q_id := "Q2"; question_text := "Why?"; question_type := None;
                 answer_json := None; submission_id := "S1" |}
              "sk-reference" Sample.world)
    as (result & w' & e & Hrun & _ & _ & He & Hverdict & _).
  - reflexivity.
  - split; apply (bool_decide_unpack _); vm_compute; exact I.
  - by exists result, w', e.
Defined.

(** ** The handler as a whole ([serve]) *)

(** The loop, seen from outside: one result per assignment whose judge and
    question are in the maps, in the order of the assignments. *)
Lemma process_effect (env : Env) (judgeMap : gmap string JudgeData)
    (questionMap : gmap string QuestionData) (openaiApiKey : string)
    (assignments : list Assignment) (results : list EvaluationResult) (w : World) :
  exists new w',
    process env judgeMap questionMap openaiApiKey assignments results w
    = (Return (results ++ new), w') /\
    result_pair <$> new
    = assignment_pair <$>
        filter (fun a => is_Some (judgeMap !! judge_id a)
                         ∧ is_Some (questionMap !! question_id a)) assignments /\
    Forall valid_result new /\
    same_configuration w w' /\
    db_calls w <= db_calls w' <= db_calls w + 2 * length assignments /\
    sends (fun q => exists a judge question,
             a ∈ assignments /\ judgeMap !! judge_id a = Some judge
             /\ questionMap !! question_id a = Some question
             /\ request_for env openaiApiKey judge question q)
          (2 * length assignments) w w'.
Proof.
  revert results w. induction assignments as [| a rest IH]; intros results w.
  - exists [], w. rewrite app_nil_r. cbn [process length].
    split_and!; [done | done | done | apply same_configuration_refl | lia | lia
                | by apply sends_refl].
  - cbn [process]. rewrite filter_cons.
    assert (Hskip : forall results' w1,
      ~ (is_Some (judgeMap !! judge_id a) ∧ is_Some (questionMap !! question_id a)) ->
      exists new w',
        process env judgeMap questionMap openaiApiKey rest results' w1
        = (Return (results' ++ new), w') /\
        result_pair <$> new
        = assignment_pair <$>
            filter (fun a => is_Some (judgeMap !! judge_id a)
                             ∧ is_Some (questionMap !! question_id a)) rest /\
        Forall valid_result new /\
        same_configuration w1 w' /\
        db_calls w1 <= db_calls w' <= db_calls w1 + 2 * length (a :: rest) /\
        sends (fun q => exists a' judge question,
                 a' ∈ a :: rest /\ judgeMap !! judge_id a' = Some judge
                 /\ questionMap !! question_id a' = Some question
                 /\ request_for env openaiApiKey judge question q)
              (2 * length (a :: rest)) w1 w').
    { intros results' w1 _.
      destruct (IH results' w1) as (new & w' & Hrun & Hpairs & Hvalid & Hconfig & Hcalls
                                    & Hsends).
      exists new, w'. cbn [length]. split_and!; [done | done | done | done | lia | lia |].
      eapply sends_weaken; [| | exact Hsends]; [| lia].
      intros q (a' & judge & question & Ha' & Hrest). exists a', judge, question.
      split; [by right | done]. }
    destruct (judgeMap !! judge_id a) as [judge |] eqn:Hjudge.
    2:{ rewrite decide_False; [| by intros [[? [=]] _]].
        apply Hskip. by intros [[? [=]] _]. }
    destruct (questionMap !! question_id a) as [question |] eqn:Hquestion.
    2:{ rewrite decide_False; [| by intros [_ [? [=]]]].
        apply Hskip. by intros [_ [? [=]]]. }
    rewrite decide_True; [| by split; eexists].
    destruct (evaluateAssignment_effect env a judge question openaiApiKey w)
      as (result & w1 & Hstep & Hpair & Hresult & Hc1 & Hd1 & Hs1).
    run. rewrite Hstep.
    destruct (IH (results ++ [result]) w1)
      as (new & w' & Hrun & Hpairs & Hvalid & Hconfig & Hcalls & Hsends).
    exists (result :: new), w'. cbn [length].
    split_and!.
    + by rewrite Hrun, <- app_assoc.
    + by rewrite !fmap_cons, Hpair, Hpairs.
    + by constructor.
    + by eapply same_configuration_trans.
    + lia.
    + lia.
    + replace (2 * S (length rest)) with (2 + 2 * length rest) by lia.
      eapply sends_trans.
      * eapply sends_weaken; [| | exact Hs1]; [| lia].
        intros q Hq. exists a, judge, question. split; [left | done].
      * eapply sends_weaken; [| | exact Hsends]; [| lia].
        intros q (a' & judge' & question' & Ha' & Hrest). exists a', judge', question'.
        split; [by right | done].
Qed.

Lemma quiet_refl (w : World) : quiet w w.
Proof. by repeat split. Qed.

Lemma deleteOldEvaluations_quiet_failure (env : Env) (questionIds : list string)
    (currentAssignments : list Assignment) (w w' : World) (e : thrown) :
  deleteOldEvaluations env questionIds currentAssignments w = (Throw e, w') -> quiet w w'.
Proof.
  unfold deleteOldEvaluations.
  destruct (decide (length questionIds = 0)); [done |].
  run. destruct (db_error env (db_calls w)); [by intros [= _ <-] |].
  destruct (decide (length _ = 0)); [done |].
  destruct (decide (length _ = 0)); [done |].
  run. destruct (db_error env (S (db_calls w))); [by intros [= _ <-] | done].
Qed.

(** The reconciliation reads and writes the evaluations only. *)
Lemma deleteOldEvaluations_effect (env : Env) (questionIds : list string)
    (currentAssignments : list Assignment) (w : World) :
  let w' := snd (deleteOldEvaluations env questionIds currentAssignments w) in
  same_configuration w w' /\ http_log w' = http_log w /\
  db_calls w <= db_calls w' <= db_calls w + 2.
Proof.
  cbv zeta. unfold deleteOldEvaluations, same_configuration.
  destruct (decide (length questionIds = 0)); [cbn; split_and!; try done; lia |].
  run. destruct (db_error env (db_calls w)); [cbn; split_and!; try done; lia |].
  destruct (decide (length _ = 0)); [cbn; split_and!; try done; lia |].
  destruct (decide (length _ = 0)); [cbn; split_and!; try done; lia |].
  run. destruct (db_error env (S (db_calls w))); cbn; split_and!; try done; lia.
Qed.

(** How a run of the handler goes: either it answers without having written
    anything or called the provider (the preflight, an error, or the empty
    success), after seven round trips at most, or it resolves the assignments
    of the workspace and the judges of the user in five round trips,
    reconciles, runs the loop and answers with its results. *)
Lemma serve_shape (env : Env) (req : Request) (w : World) :
  (exists response w',
     serve env req w = (Return response, w') /\ quiet w w' /\
     db_calls w <= db_calls w' <= db_calls w + 7 /\
     (response = preflight \/ response = successResponse []
      \/ exists message status, status <> 200 /\ response = errorResponse message status))
  \/ (exists key workspace user request w0 w1 w2 results,
        OPENAI_SECRET_KEY env = Some key /\
        json_body req = Return request /\
        workspaceId request = Some workspace /\ userId request = Some user /\
        quiet w w0 /\ db_calls w0 = db_calls w + 5 /\
        deleteOldEvaluations env (qrow_id <$> workspace_questions w workspace)
                             (workspace_assignments w workspace) w0 = (Return tt, w1) /\
        process env (judge_map w workspace user) (question_map w workspace) key
                (workspace_assignments w workspace) [] w1 = (Return results, w2) /\
        serve env req w = (Return (successResponse results), w2)).
Proof.
  assert (Hquiet : forall response w',
            quiet w w' -> db_calls w <= db_calls w' <= db_calls w + 7 ->
            (response = preflight \/ response = successResponse []
             \/ exists message status,
                  status <> 200 /\ response = errorResponse message status) ->
            exists response' w'',
              (Return response, w') = (Return response', w'') /\ quiet w w'' /\
              db_calls w <= db_calls w'' <= db_calls w + 7 /\
              (response' = preflight \/ response' = successResponse []
               \/ exists message status,
                    status <> 200 /\ response' = errorResponse message status))
    by (intros; by do 2 eexists).
  assert (H500 : forall (e : thrown) w',
            quiet w w' -> db_calls w <= db_calls w' <= db_calls w + 7 ->
            exists response' w'',
              (Return (errorResponse (message_or_unknown e) 500), w')
              = (Return response', w'') /\ quiet w w'' /\
              db_calls w <= db_calls w'' <= db_calls w + 7 /\
              (response' = preflight \/ response' = successResponse []
               \/ exists message status,
                    status <> 200 /\ response' = errorResponse message status))
    by (intros; apply Hquiet; [done | done |]; right; right; eexists _, 500;
        split; [lia | reflexivity]).
  assert (H400 : forall w',
            quiet w w' -> db_calls w <= db_calls w' <= db_calls w + 7 ->
            exists response' w'',
              (Return (errorResponse "Missing workspaceId or userId" 400), w')
              = (Return response', w'') /\ quiet w w'' /\
              db_calls w <= db_calls w'' <= db_calls w + 7 /\
              (response' = preflight \/ response' = successResponse []
               \/ exists message status,
                    status <> 200 /\ response' = errorResponse message status))
    by (intros; apply Hquiet; [done | done |]; right; right; eexists _, 400;
        split; [lia | reflexivity]).
  assert (Hempty : forall w',
            quiet w w' -> db_calls w <= db_calls w' <= db_calls w + 7 ->
            exists response' w'',
              (Return (successResponse []), w') = (Return response', w'') /\ quiet w w'' /\
              db_calls w <= db_calls w'' <= db_calls w + 7 /\
              (response' = preflight \/ response' = successResponse []
               \/ exists message status,
                    status <> 200 /\ response' = errorResponse message status))
    by (intros; apply Hquiet; [done | done | by right; left]).
  unfold serve.
  destruct (Str.eqb (method req) "OPTIONS");
    [left; apply Hquiet; [apply quiet_refl | lia | by left] |].
  run.
  destruct (OPENAI_SECRET_KEY env) as [key |] eqn:Hkey;
    [| left; apply H500; [apply quiet_refl | lia]].
  destruct (Str.eqb key ""); run; [left; apply H500; [apply quiet_refl | lia] |].
  destruct (json_body req) as [request | e] eqn:Hbody;
    [| left; apply H500; [apply quiet_refl | lia]].
  destruct (workspaceId request) as [workspace |] eqn:Hworkspace;
    [| left; apply H400; [apply quiet_refl | lia]].
  destruct (userId request) as [user |] eqn:Huser;
    [| left; apply H400; [apply quiet_refl | lia]].
  destruct (_ || _); run; [left; apply H400; [apply quiet_refl | lia] |].
  unfold getSubmissionsForWorkspace. run.
  destruct (db_error env (db_calls w)); run;
    [left; apply H500; [by repeat split | cbn; lia] |].
  change (filter _ (submissions w)) with (workspace_submissions w workspace).
  destruct (decide (length (workspace_submissions w workspace) = 0)); run;
    [left; apply H500; [by repeat split | cbn; lia] |].
  unfold getQuestionsForSubmissions. run.
  destruct (db_error env (S (db_calls w))); run;
    [left; apply H500; [by repeat split | cbn; lia] |].
  change (filter _ (questions w)) with (workspace_questions w workspace).
  destruct (decide (length (workspace_questions w workspace) = 0)) as [| Hquestions]; run;
    [left; apply H500; [by repeat split | cbn; lia] |].
  change ((fun q => {| q_id := qrow_id q; question_text := qrow_question_text q;
                       question_type := qrow_question_type q;
                       answer_json := Some JNull;
                       submission_id := qrow_submission_id q |})
          <$> workspace_questions w workspace)
    with (question_data <$> workspace_questions w workspace).
  replace (q_id <$> (question_data <$> workspace_questions w workspace))
    with (qrow_id <$> workspace_questions w workspace)
    by (rewrite <- list_fmap_compose; by apply list_fmap_ext).
  unfold getAnswersForQuestions. run.
  destruct (db_error env (S (S (db_calls w)))); run;
    [left; apply H500; [by repeat split | cbn; lia] |].
  change (foldl _ ∅ (filter _ (answers w)))
    with (answer_map (workspace_answers w workspace)).
  unfold getJudgeAssignments.
  destruct (decide (length (qrow_id <$> workspace_questions w workspace) = 0))
    as [Hnil |]; [by rewrite length_fmap in Hnil |].
  run.
  destruct (db_error env (S (S (S (db_calls w))))) as [e |]; run.
  { destruct (is_Error_about e _); run; left;
      [apply Hempty | apply H500]; (by repeat split) || (cbn; lia). }
  change (filter _ (judge_assignments w)) with (workspace_assignments w workspace).
  destruct (decide (length (workspace_assignments w workspace) = 0)) as [| Hsome]; run.
  { unfold is_Error_about, new_Error.
    destruct (Str.includes _ _); run; left;
      [apply Hempty | apply H500]; (by repeat split) || (cbn; lia). }
  unfold run_assignments, getJudgesForUser.
  destruct (decide (length (elements _) = 0)) as [Hnone%nil_length_inv |].
  { apply elements_empty_inv in Hnone.
    destruct (workspace_assignments w workspace) as [| a l]; [done |].
    exfalso. apply (not_elem_of_empty (C:=gset string) (judge_id a)).
    rewrite <- Hnone. apply elem_of_list_to_set. left. }
  run.
  destruct (db_error env (S (S (S (S (db_calls w)))))) as [e |]; run.
  { destruct (is_Error_about e _); run; left;
      [apply Hempty | apply H500]; (by repeat split) || (cbn; lia). }
  rewrite (filter_equiv _ (fun j => jrow_id j ∈ (judge_id <$> workspace_assignments w workspace)
                                    ∧ jrow_user_id j = user));
    [| intros j; by rewrite elem_of_elements, elem_of_list_to_set].
  change (filter _ (judges w)) with (owned_judges w workspace user).
  destruct (decide (length (owned_judges w workspace user) = 0)); run.
  { unfold is_Error_about, new_Error.
    destruct (Str.includes _ _); run; left;
      [apply Hempty | apply H500]; (by repeat split) || (cbn; lia). }
  change ((fun j => {| id := jrow_id j; name := jrow_name j;
                       system_prompt := jrow_system_prompt j; model := jrow_model j |})
          <$> owned_judges w workspace user)
    with (judge_data <$> owned_judges w workspace user).
  fold (judge_map w workspace user). fold (question_map w workspace).
  set (w0 := tick (tick (tick (tick (tick w))))).
  pose proof (deleteOldEvaluations_effect env (qrow_id <$> workspace_questions w workspace)
                (workspace_assignments w workspace) w0) as (_ & _ & Hcalls).
  destruct (deleteOldEvaluations env _ _ w0) as [[[] | e] w1] eqn:Hdelete.
  2:{ left. apply H500.
      - by apply deleteOldEvaluations_quiet_failure in Hdelete.
      - cbn in Hcalls. lia. }
  destruct (process_effect env (judge_map w workspace user) (question_map w workspace) key
              (workspace_assignments w workspace) [] w1) as (results & w2 & Hrun & _).
  rewrite Hrun. right. exists key, workspace, user, request, w0, w1, w2, results.
  split_and!; try done. cbn. lia.
Qed.

Lemma last_filter_elem_of {A} (P : A -> Prop) `{!forall x, Decision (P x)} (l : list A)
    (x : A) :
  last (filter P l) = Some x -> x ∈ l /\ P x.
Proof.
  intros [l' Hl]%last_Some.
  assert (Hx : x ∈ filter P l) by (rewrite Hl; apply elem_of_app; right; left).
  by apply list_elem_of_filter in Hx as [? ?].
Qed.

Lemma last_filter_is_Some {A} (P : A -> Prop) `{!forall x, Decision (P x)} (l : list A) :
  is_Some (last (filter P l)) <-> Exists P l.
Proof.
  rewrite Exists_exists. split.
  - intros [x Hx%last_filter_elem_of]. by exists x.
  - intros (x & Hin & Hx). destruct (last (filter P l)) as [y |] eqn:Hlast; [by eexists |].
    apply last_None in Hlast. by destruct (filter_nil_not_elem_of _ _ x Hlast Hx).
Qed.

Lemma judge_map_lookup (w : World) (workspace user k : string) (judge : JudgeData) :
  judge_map w workspace user !! k = Some judge ->
  exists j, j ∈ owned_judges w workspace user /\ jrow_id j = k /\ judge = judge_data j.
Proof.
  unfold judge_map, buildJudgeMap.
  rewrite (foldl_insert_lookup id (fun j => j)), lookup_empty.
  destruct (last _) as [j |] eqn:Hlast; [| done]. intros [= <-].
  apply last_filter_elem_of in Hlast as [(row & -> & Hrow)%list_elem_of_fmap Hid].
  by exists row.
Qed.

Lemma judge_map_is_Some (w : World) (workspace user k : string) :
  is_Some (judge_map w workspace user !! k)
  <-> Exists (fun j => jrow_id j = k) (owned_judges w workspace user).
Proof.
  unfold judge_map, buildJudgeMap.
  rewrite (foldl_insert_lookup id (fun j => j)), lookup_empty.
  transitivity (is_Some (last (filter (fun j => id j = k)
                                      (judge_data <$> owned_judges w workspace user)))).
  { by destruct (last _). }
  rewrite last_filter_is_Some, !Exists_exists. split.
  - intros (j & (row & -> & Hrow)%list_elem_of_fmap & Hid). by exists row.
  - intros (row & Hrow & Hid). exists (judge_data row).
    split; [by apply list_elem_of_fmap_2 | done].
Qed.

Lemma question_map_lookup (w : World) (workspace k : string) (question : QuestionData) :
  question_map w workspace !! k = Some question ->
  exists q, q ∈ workspace_questions w workspace /\ qrow_id q = k /\
            question_text question = qrow_question_text q /\
            question_type question = qrow_question_type q /\
            answer_json question = answer_map (workspace_answers w workspace) !! k.
Proof.
  unfold question_map, buildQuestionMap.
  rewrite (foldl_insert_lookup q_id
             (fun q => {| q_id := q_id q; question_text := question_text q;
                          question_type := question_type q;
                          answer_json := answer_map (workspace_answers w workspace) !! q_id q;
                          submission_id := submission_id q |})), lookup_empty.
  destruct (last _) as [q |] eqn:Hlast; [| done]. intros [= <-].
  apply last_filter_elem_of in Hlast as [(row & -> & Hrow)%list_elem_of_fmap Hid].
  exists row. cbn in *. by rewrite Hid.
Qed.

Lemma question_map_is_Some (w : World) (workspace k : string) :
  k ∈ (qrow_id <$> workspace_questions w workspace) ->
  is_Some (question_map w workspace !! k).
Proof.
  intros (row & -> & Hrow)%list_elem_of_fmap.
  unfold question_map, buildQuestionMap.
  rewrite (foldl_insert_lookup q_id
             (fun q => {| q_id := q_id q; question_text := question_text q;
                          question_type := question_type q;
                          answer_json := answer_map (workspace_answers w workspace) !! q_id q;
                          submission_id := submission_id q |})), lookup_empty.
  assert (Hsome : is_Some (last (filter (fun q => q_id q = qrow_id row)
                                        (question_data <$> workspace_questions w workspace)))).
  { apply last_filter_is_Some, Exists_exists. exists (question_data row).
    split; [by apply list_elem_of_fmap_2 | done]. }
  destruct Hsome as [q ->]. by eexists.
Qed.

(** The assignments the loop evaluates are those whose judge the user owns. *)
Lemma evaluable_owned (w : World) (workspace user : string) :
  filter (fun a => is_Some (judge_map w workspace user !! judge_id a)
                   ∧ is_Some (question_map w workspace !! question_id a))
         (workspace_assignments w workspace)
  = filter (fun a => owned_by w user (judge_id a)) (workspace_assignments w workspace).
Proof.
  apply filter_equiv_in. intros a Ha. unfold owned_by. rewrite judge_map_is_Some.
  rewrite !Exists_exists. split.
  - intros [(j & Hj & Hid) _]. exists j.
    apply list_elem_of_filter in Hj as [[_ Huser] Hj]. by split.
  - intros (j & Hj & Hid & Huser). split.
    + exists j. split; [| done]. apply list_elem_of_filter. split; [| done].
      split; [| done]. rewrite Hid. by apply list_elem_of_fmap_2.
    + apply question_map_is_Some.
      by apply list_elem_of_filter in Ha as [Hq _].
Qed.

(** What a run of the handler leaves behind, whatever path it takes. *)
Lemma serve_effect (env : Env) (req : Request) (w : World) :
  exists response w',
    serve env req w = (Return response, w') /\
    same_configuration w w' /\
    (status response <> 200 -> quiet w w') /\
    db_calls w <= db_calls w' <= db_calls w + 7 + 2 * length (judge_assignments w) /\
    sends (authorised env req w) (2 * length (judge_assignments w)) w w'.
Proof.
  destruct (serve_shape env req w)
    as [(response & w' & Hrun & Hquiet & Hcalls & _)
       | (key & workspace & user & request & w0 & w1 & w2 & results & Hkey & Hbody
          & Hworkspace & Huser & Hquiet & Hcalls & Hdelete & Hprocess & Hrun)].
  - exists response, w'. destruct Hquiet as (? & ? & ? & ? & ? & ? & ?).
    split_and!; try done; try lia. by apply sends_refl.
  - exists (successResponse results), w2.
    pose proof (deleteOldEvaluations_effect env (qrow_id <$> workspace_questions w workspace)
                  (workspace_assignments w workspace) w0) as Hreconcile.
    rewrite Hdelete in Hreconcile. cbn [snd] in Hreconcile.
    destruct Hreconcile as (Hconfig1 & Hlog1 & Hcalls1).
    destruct (process_effect env (judge_map w workspace user) (question_map w workspace) key
                (workspace_assignments w workspace) [] w1)
      as (new & w2' & Hrun' & _ & _ & Hconfig2 & Hcalls2 & Hsends).
    rewrite Hprocess in Hrun'. injection Hrun' as _ <-.
    assert (Hlength : length (workspace_assignments w workspace)
                      <= length (judge_assignments w)) by apply length_filter.
    assert (Hconfig0 : same_configuration w w0)
      by (destruct Hquiet as (? & ? & ? & ? & ? & _); by split_and!).
    split_and!; [done | | done | lia | lia |].
    + eapply same_configuration_trans; [| done].
      by eapply same_configuration_trans.
    + destruct Hsends as (sent & Hlog & Hsent & Hbound). exists sent.
      split_and!; [| | lia].
      * destruct Hquiet as (_ & _ & _ & _ & _ & _ & Hlog0). by rewrite Hlog, Hlog1, Hlog0.
      * eapply Forall_impl; [done |]. cbn beta.
        intros q (a & judge & question & Ha & Hjudge & Hquestion & temperature & ->).
        apply judge_map_lookup in Hjudge as (j & Hj & _ & ->).
        apply question_map_lookup in Hquestion as (row & Hrow & Hid & Htext & Htype & Hanswer).
        exists request, workspace, user, j, row.
        cbn [chat_request rq_bearer rq_system rq_model rq_user judge_data system_prompt model].
        split_and!; try done. by rewrite Htext, Htype, Hanswer, Hid.
Qed.

(** X12: a response with a status other than 200 means that the run wrote
    nothing and never called the provider: every table and the log of
    requests are as they were. *)
Theorem serve_error_writes_nothing (env : Env) (req : Request) (w w' : World)
    (response : HttpResponse) :
  serve env req w = (Return response, w') ->
  status response <> 200 ->
  quiet w w'.
Proof.
  intros Hrun Hstatus.
  destruct (serve_effect env req w) as (response' & w'' & Hrun' & _ & Hquiet & _).
  rewrite Hrun in Hrun'. injection Hrun' as <- <-. by apply Hquiet.
Qed.

Lemma serve_error_writes_nothing_witness :
  quiet Sample.world (snd (serve Sample.offline (Sample.post "W0" "U1") Sample.world)).
Proof.
  apply (serve_error_writes_nothing Sample.offline (Sample.post "W0" "U1") Sample.world _
           (errorResponse "No submissions found in workspace" 500)).
  - vm_compute. reflexivity.
  - cbn. lia.
Defined.

(** X13: whatever the request and whatever fails, a run of the handler
    leaves the submissions, questions, answers, assignments and judges as
    they are, and makes at most seven round trips to the database plus two
    for each assignment. *)
Theorem serve_configuration_untouched (env : Env) (req : Request) (w : World) :
  let w' := snd (serve env req w) in
  same_configuration w w' /\
  db_calls w <= db_calls w' <= db_calls w + 7 + 2 * length (judge_assignments w).
Proof.
  cbv zeta. destruct (serve_effect env req w) as (response & w' & Hrun & Hconfig & _ & Hcalls & _).
  by rewrite Hrun.
Qed.

(** X14: the handler sends at most two requests for each assignment, and
    each of them carries the configured key, the system prompt and the model
    of a judge that the user owns, and the prompt built from a question of
    the workspace asked for. *)
Theorem serve_requests (env : Env) (req : Request) (w : World) :
  sends (authorised env req w) (2 * length (judge_assignments w)) w (snd (serve env req w)).
Proof.
  destruct (serve_effect env req w) as (response & w' & Hrun & _ & _ & _ & Hsends).
  by rewrite Hrun.
Qed.

(** X15: the handler always answers, and a success other than the empty one
    reports exactly one valid result for each assignment of the workspace
    whose judge the user owns, in the order of the assignments. *)
Theorem serve_results (env : Env) (req : Request) (w : World) :
  exists response w',
    serve env req w = (Return response, w') /\
    (response = preflight
     \/ (exists message status, status <> 200 /\ response = errorResponse message status)
     \/ response = successResponse []
     \/ exists request workspace user results,
          json_body req = Return request /\
          workspaceId request = Some workspace /\ userId request = Some user /\
          response = successResponse results /\
          Forall valid_result results /\
          result_pair <$> results
          = assignment_pair <$> filter (fun a => owned_by w user (judge_id a))
                                       (workspace_assignments w workspace)).
Proof.
  destruct (serve_shape env req w)
    as [(response & w' & Hrun & _ & _ & Hresponse)
       | (key & workspace & user & request & w0 & w1 & w2 & results & Hkey & Hbody
          & Hworkspace & Huser & Hquiet & Hcalls & Hdelete & Hprocess & Hrun)].
  - exists response, w'. split; [done |]. destruct Hresponse as [| [|]]; eauto.
  - exists (successResponse results), w2. split; [done |]. do 3 right.
    destruct (process_effect env (judge_map w workspace user) (question_map w workspace) key
                (workspace_assignments w workspace) [] w1)
      as (new & w2' & Hrun' & Hpairs & Hvalid & _).
    rewrite Hprocess in Hrun'. injection Hrun' as -> _.
    exists request, workspace, user, new. by rewrite <- evaluable_owned.
Qed.

(** X16: a run that cannot start answers at once, without a single round
    trip to the database: with status 500 when the key is not configured
    (whatever the body) or when the body cannot be read, with status 400
    when the workspace or the user is missing or empty. *)
Theorem serve_bad_request (env : Env) (req : Request) (w : World) :
  method req <> "OPTIONS" ->
  (OPENAI_SECRET_KEY env = None \/ OPENAI_SECRET_KEY env = Some "" ->
   serve env req w
   = (Return (errorResponse "OPENAI_SECRET_KEY not configured in environment variables" 500),
      w)) /\
  (forall key e,
     OPENAI_SECRET_KEY env = Some key -> key <> "" -> json_body req = Throw e ->
     serve env req w = (Return (errorResponse (message_or_unknown e) 500), w)) /\
  (forall key request,
     OPENAI_SECRET_KEY env = Some key -> key <> "" -> json_body req = Return request ->
     missing (workspaceId request) || missing (userId request) = true ->
     serve env req w = (Return (errorResponse "Missing workspaceId or userId" 400), w)).
Proof.
  intros Hmethod. unfold serve, Str.eqb. rewrite (bool_decide_eq_false_2 _ Hmethod).
  split_and!.
  - by intros [-> | ->].
  - intros key e -> Hkey ->. by rewrite (bool_decide_eq_false_2 _ Hkey).
  - intros key request -> Hkey -> Hmissing. rewrite (bool_decide_eq_false_2 _ Hkey).
    run. destruct (workspaceId request), (userId request); try done.
    by rewrite Hmissing.
Qed.

Lemma serve_bad_request_witness :
  serve Sample.offline
        {| method := "POST";
           json_body := Return {| workspaceId := None; userId := Some "U1" |} |}
        Sample.world
  = (Return (errorResponse "Missing workspaceId or userId" 400), Sample.world).
Proof.
  destruct (serve_bad_request Sample.offline
              {| method := "POST";
                 json_body := Return {| workspaceId := None; userId := Some "U1" |} |}
              Sample.world) as (_ & _ & H400); [discriminate |].
  by apply (H400 "sk-reference" {| workspaceId := None; userId := Some "U1" |}).
Defined.
